(** * dbrest: request construction, error classification and response
      normalisation

    A shallow embedding of the two Go packages of the command-line client,
    [internal/api] (client construction, URL composition, GET with status
    classification, [HTTPError]) and [internal/format] (decoding of the JSON
    payloads and rendering of the tab-separated tables), together with the
    part of the Go standard library these packages call ([strings],
    [unicode/utf8], [strconv], [fmt] verbs, [net/url], [net/http]'s reason
    phrases and [encoding/json]).

    Conventions.
    - A Go [string] or [[]byte] is a [string]: a sequence of 8-bit bytes.
    - A Go [int] is a [Z]; the code does no arithmetic on it that can wrap
      (only [/ 60] and [% 60]), and the decoder rejects literals outside the
      64-bit range.
    - A Go [(T, error)] result is a [result T]; a pointer [*T] is an
      [option T]; a slice is a [slice T] (its elements, and the elements
      left behind in its backing array, which the JSON decoder reuses).
    - The network is an explicit argument of [Get]: a [Transport] maps the
      request to the outcome of [http.Client.Do] and of reading the body.
    - The library models follow Go 1.22. *)

From Stdlib Require Import ZArith NArith Ascii String List Bool Lia.
From Stdlib Require Import DecimalString.
From stdpp Require Import base option list strings gmap sorting.

Local Open Scope N_scope.

(* ================================================================== *)
(** * Bytes and strings *)

Definition b2n (c : ascii) : N := N_of_ascii c.
Definition n2b (n : N) : ascii := ascii_of_N n.

(** [lo <= c <= hi] on byte values, as in Go's ['a' <= c && c <= 'z']. *)
Definition between (lo hi c : ascii) : bool :=
  (b2n lo <=? b2n c) && (b2n c <=? b2n hi).

Definition byte_eqb (a b : ascii) : bool := Ascii.eqb a b.

Definition TAB : string := String "009" "".
Definition NL : string := String "010" "".

Fixpoint str_take (n : nat) (s : string) : string :=
  match n, s with
  | S n', String c s' => String c (str_take n' s')
  | _, _ => ""
  end.

Fixpoint str_drop (n : nat) (s : string) : string :=
  match n, s with
  | S n', String _ s' => str_drop n' s'
  | _, _ => s
  end.

(** [s[i:j]] *)
Definition str_slice (i j : nat) (s : string) : string :=
  str_take (j - i) (str_drop i s).

Definition str_all (p : ascii → bool) (s : string) : bool :=
  forallb p (list_ascii_of_string s).

Definition str_any (p : ascii → bool) (s : string) : bool :=
  existsb p (list_ascii_of_string s).

Definition str_is_empty (s : string) : bool :=
  match s with "" => true | _ => false end.

Fixpoint str_concat (l : list string) : string :=
  match l with
  | [] => ""
  | s :: l' => s +:+ str_concat l'
  end.

(* ================================================================== *)
(** * Errors and results *)

(** [api.HTTPError]: a non-2xx response, with its body. *)
Record HTTPError : Type := mkHTTPError { Status : Z; Body : string }.

(** The error values the two packages and the library calls produce. *)
Inductive error : Type :=
| errorString (msg : string)                    (* errors.New(msg) *)
| wrapError (msg : string) (err : error)        (* fmt.Errorf(msg + "%w", err) *)
| url_Error (Op URL : string) (err : error)     (* *url.Error *)
| url_EscapeError (s : string)
| url_InvalidHostError (s : string)
| json_SyntaxError                              (* *json.SyntaxError *)
| json_UnmarshalTypeError (Value Ty : string) (* *json.UnmarshalTypeError *)
| errHTTP (e : HTTPError)                       (* api.HTTPError *)
| transportError (cause : string).              (* what http.Client.Do or
                                                   the body reader reports *)

Inductive result (A : Type) : Type :=
| Ok (a : A)
| Err (e : error).
Arguments Ok {A} a.
Arguments Err {A} e.

#[global] Instance result_ret : MRet result := λ A a, Ok a.
#[global] Instance result_bind : MBind result := λ A B f m,
  match m with Ok a => f a | Err e => Err e end.

#[global] Instance result_fmap : FMap result := λ A B f m,
  match m with Ok a => Ok (f a) | Err e => Err e end.

Definition is_Ok {A} (r : result A) : bool :=
  match r with Ok _ => true | Err _ => false end.

(* ================================================================== *)
(** * unicode/utf8 and unicode *)

Definition RuneError : N := 0xFFFD.
Definition RuneSelf : N := 0x80.
Definition UTFMax : nat := 4.

(** The table [first] of utf8.go with its accept ranges: for a leading
    byte, the length of the sequence and the range of the second byte. *)
Definition utf8_first (b0 : N) : option (nat * N * N) :=
  if (0xC2 <=? b0) && (b0 <=? 0xDF) then Some (2%nat, 0x80, 0xBF)
  else if b0 =? 0xE0 then Some (3%nat, 0xA0, 0xBF)
  else if (0xE1 <=? b0) && (b0 <=? 0xEC) then Some (3%nat, 0x80, 0xBF)
  else if b0 =? 0xED then Some (3%nat, 0x80, 0x9F)
  else if (0xEE <=? b0) && (b0 <=? 0xEF) then Some (3%nat, 0x80, 0xBF)
  else if b0 =? 0xF0 then Some (4%nat, 0x90, 0xBF)
  else if (0xF1 <=? b0) && (b0 <=? 0xF3) then Some (4%nat, 0x80, 0xBF)
  else if b0 =? 0xF4 then Some (4%nat, 0x80, 0x8F)
  else None.

Definition utf8_cont (b : N) : bool := (0x80 <=? b) && (b <=? 0xBF).

(** utf8.DecodeRuneInString: the first rune of [s] and its width in bytes;
    [(RuneError, 0)] on the empty string, [(RuneError, 1)] on an invalid
    encoding. *)
Definition utf8_DecodeRuneInString (s : string) : N * nat :=
  match s with
  | "" => (RuneError, 0%nat)
  | String c0 s1 =>
    let b0 := b2n c0 in
    if b0 <? RuneSelf then (b0, 1%nat)
    else
      match utf8_first b0, s1 with
      | Some (sz, lo, hi), String c1 s2 =>
        let b1 := b2n c1 in
        if negb ((lo <=? b1) && (b1 <=? hi)) then (RuneError, 1%nat)
        else
          match sz, s2 with
          | 2%nat, _ =>
            (N.lor (N.shiftl (N.land b0 0x1F) 6) (N.land b1 0x3F), 2%nat)
          | _, String c2 s3 =>
            let b2 := b2n c2 in
            if negb (utf8_cont b2) then (RuneError, 1%nat)
            else
              match sz, s3 with
              | 3%nat, _ =>
                (N.lor (N.shiftl (N.land b0 0x0F) 12)
                   (N.lor (N.shiftl (N.land b1 0x3F) 6) (N.land b2 0x3F)),
                 3%nat)
              | _, String c3 _ =>
                let b3 := b2n c3 in
                if negb (utf8_cont b3) then (RuneError, 1%nat)
                else
                  (N.lor (N.shiftl (N.land b0 0x07) 18)
                     (N.lor (N.shiftl (N.land b1 0x3F) 12)
                        (N.lor (N.shiftl (N.land b2 0x3F) 6)
                           (N.land b3 0x3F))),
                   4%nat)
              | _, "" => (RuneError, 1%nat)
              end
          | _, "" => (RuneError, 1%nat)
          end
      | _, _ => (RuneError, 1%nat)
      end
  end.

(** utf8.RuneStart *)
Definition utf8_RuneStart (c : ascii) : bool :=
  negb (N.land (b2n c) 0xC0 =? 0x80).

(** The backwards scan of utf8.DecodeLastRuneInString: [start] moves
    left, from the byte before the last one, while it is not below [lim],
    and stops on a byte that can start a rune; [steps] bounds the scan,
    which visits at most [UTFMax] bytes. *)
Fixpoint utf8_scan_back (s : string) (lim : Z) (start : Z) (steps : nat) : Z :=
  match steps with
  | O => start
  | S k =>
    if (start <? lim)%Z then start
    else
      match String.get (Z.to_nat start) s with
      | Some c => if utf8_RuneStart c then start
                  else utf8_scan_back s lim (start - 1)%Z k
      | None => start
      end
  end.

(** utf8.DecodeLastRuneInString *)
Definition utf8_DecodeLastRuneInString (s : string) : N * nat :=
  let end_ := String.length s in
  match end_ with
  | O => (RuneError, 0%nat)
  | S last =>
    match String.get last s with
    | None => (RuneError, 0%nat)
    | Some c =>
      let r := b2n c in
      if r <? RuneSelf then (r, 1%nat)
      else
        let lim := Z.max 0 (Z.of_nat end_ - Z.of_nat UTFMax)%Z in
        let start := utf8_scan_back s lim (Z.of_nat last - 1)%Z (S UTFMax) in
        let start := Z.to_nat (Z.max 0 start) in
        let '(r, size) := utf8_DecodeRuneInString (str_slice start end_ s) in
        if negb (Nat.eqb (start + size) end_) then (RuneError, 1%nat)
        else (r, size)
    end
  end.

(** utf8.EncodeRune / utf8.AppendRune *)
Definition utf8_EncodeRune (r : N) : string :=
  let enc3 (r : N) :=
    String (n2b (N.lor 0xE0 (N.shiftr r 12)))
      (String (n2b (N.lor 0x80 (N.land (N.shiftr r 6) 0x3F)))
         (String (n2b (N.lor 0x80 (N.land r 0x3F))) "")) in
  if r <=? 0x7F then String (n2b r) ""
  else if r <=? 0x7FF then
    String (n2b (N.lor 0xC0 (N.shiftr r 6)))
      (String (n2b (N.lor 0x80 (N.land r 0x3F))) "")
  else if (0x10FFFF <? r) || ((0xD800 <=? r) && (r <=? 0xDFFF)) then
    enc3 RuneError
  else if r <=? 0xFFFF then enc3 r
  else
    String (n2b (N.lor 0xF0 (N.shiftr r 18)))
      (String (n2b (N.lor 0x80 (N.land (N.shiftr r 12) 0x3F)))
         (String (n2b (N.lor 0x80 (N.land (N.shiftr r 6) 0x3F)))
            (String (n2b (N.lor 0x80 (N.land r 0x3F))) ""))).

(** unicode.IsSpace: the Latin-1 spaces and the White_Space property
    outside Latin-1. *)
Definition unicode_IsSpace (r : N) : bool :=
  if r <=? 0xFF then
    (r =? 0x09) || (r =? 0x0A) || (r =? 0x0B) || (r =? 0x0C) || (r =? 0x0D)
    || (r =? 0x20) || (r =? 0x85) || (r =? 0xA0)
  else
    (r =? 0x1680) || ((0x2000 <=? r) && (r <=? 0x200A)) || (r =? 0x2028)
    || (r =? 0x2029) || (r =? 0x202F) || (r =? 0x205F) || (r =? 0x3000).

(* ================================================================== *)
(** * strings *)

Fixpoint strings_HasPrefix (s prefix : string) {struct prefix} : bool :=
  match prefix, s with
  | "", _ => true
  | String p prefix', String c s' => byte_eqb c p && strings_HasPrefix s' prefix'
  | String _ _, "" => false
  end.

Definition strings_HasSuffix (s suffix : string) : bool :=
  strings_HasPrefix (String.rev s) (String.rev suffix).

(** strings.Index: the index of the first instance of [sep], [None] for
    Go's [-1]. *)
Fixpoint strings_Index (s sep : string) : option nat :=
  if strings_HasPrefix s sep then Some 0%nat
  else
    match s with
    | "" => None
    | String _ s' => S <$> strings_Index s' sep
    end.

(** strings.LastIndex *)
Fixpoint strings_LastIndex (s sep : string) : option nat :=
  match s with
  | "" => if strings_HasPrefix s sep then Some 0%nat else None
  | String _ s' =>
    match strings_LastIndex s' sep with
    | Some i => Some (S i)
    | None => if strings_HasPrefix s sep then Some 0%nat else None
    end
  end.

Definition strings_Contains (s substr : string) : bool :=
  bool_decide (is_Some (strings_Index s substr)).

(** strings.Cut: [(before, after, found)]. *)
Definition strings_Cut (s sep : string) : string * string * bool :=
  match strings_Index s sep with
  | Some i => (str_take i s, str_drop (i + String.length sep) s, true)
  | None => (s, "", false)
  end.

(** strings.Count for a separator of one byte. *)
Fixpoint strings_Count (s : string) (sep : ascii) : nat :=
  match s with
  | "" => 0%nat
  | String c s' => ((if byte_eqb c sep then 1 else 0) + strings_Count s' sep)%nat
  end.

(** strings.ToLower on ASCII text: the upper-case letters are mapped, every
    other byte is kept (its only use is on a scheme, which [getScheme]
    restricts to ASCII). *)
Definition byte_lower (c : ascii) : ascii :=
  if between "A" "Z" c then n2b (b2n c + 32) else c.

Fixpoint strings_ToLower (s : string) : string :=
  match s with
  | "" => ""
  | String c s' => String (byte_lower c) (strings_ToLower s')
  end.

(** strings.TrimLeft and strings.TrimRight for a cutset of ASCII bytes
    (the code only trims ["/"]). *)
Fixpoint strings_TrimLeft (s cutset : string) : string :=
  match s with
  | "" => ""
  | String c s' =>
    if str_any (byte_eqb c) cutset then strings_TrimLeft s' cutset else s
  end.

Definition strings_TrimRight (s cutset : string) : string :=
  String.rev (strings_TrimLeft (String.rev s) cutset).

(** [asciiSpace] of strings.go *)
Definition asciiSpace (c : ascii) : bool :=
  let n := b2n c in
  (n =? 0x09) || (n =? 0x0A) || (n =? 0x0B) || (n =? 0x0C) || (n =? 0x0D)
  || (n =? 0x20).

(** strings.TrimLeftFunc: [indexFunc(s, f, false)] walks the runes of [s]
    until one does not satisfy [f]. *)
Fixpoint trimLeftFunc_go (fuel : nat) (f : N → bool) (s : string) : string :=
  match fuel, s with
  | S k, String _ _ =>
    let '(r, size) := utf8_DecodeRuneInString s in
    if f r then trimLeftFunc_go k f (str_drop size s) else s
  | _, _ => s
  end.

Definition strings_TrimLeftFunc (s : string) (f : N → bool) : string :=
  trimLeftFunc_go (String.length s) f s.

(** strings.lastIndexFunc(s, f, false): the start of the last rune of
    [s[0:i]] that does not satisfy [f], walking backwards. *)
Fixpoint lastIndexFunc_go (fuel : nat) (f : N → bool) (s : string) (i : nat)
  : option nat :=
  match fuel, i with
  | S k, S _ =>
    let '(r, size) := utf8_DecodeLastRuneInString (str_take i s) in
    let i' := (i - size)%nat in
    if negb (f r) then Some i' else lastIndexFunc_go k f s i'
  | _, _ => None
  end.

Definition strings_TrimRightFunc (s : string) (f : N → bool) : string :=
  match lastIndexFunc_go (String.length s) f s (String.length s) with
  | Some i =>
    match String.get i s with
    | Some c =>
      if RuneSelf <=? b2n c then
        let '(_, wid) := utf8_DecodeRuneInString (str_drop i s) in
        str_take (i + wid) s
      else str_take (i + 1) s
    | None => str_take (i + 1) s
    end
  | None => ""
  end.

Definition strings_TrimFunc (s : string) (f : N → bool) : string :=
  strings_TrimRightFunc (strings_TrimLeftFunc s f) f.

(** The second loop of strings.TrimSpace, on the reversal [r] of
    [s[start:stop]]: [stop] moves left over ASCII spaces. *)
Fixpoint trimSpace_stop (r : string) : string :=
  match r with
  | "" => ""
  | String c r' =>
    if RuneSelf <=? b2n c then strings_TrimRightFunc (String.rev r) unicode_IsSpace
    else if asciiSpace c then trimSpace_stop r'
    else String.rev r
  end.

(** strings.TrimSpace: the ASCII fast path, and the rune-wise functions
    once a byte outside ASCII is met. *)
Fixpoint strings_TrimSpace (s : string) : string :=
  match s with
  | "" => ""
  | String c s' =>
    if RuneSelf <=? b2n c then strings_TrimFunc s unicode_IsSpace
    else if asciiSpace c then strings_TrimSpace s'
    else trimSpace_stop (String.rev s)
  end.

(* ================================================================== *)
(** * strconv and the verbs of fmt *)

(** [%d]: base 10, a ['-'] on negative numbers. *)
Definition fmt_d (z : Z) : string := NilZero.string_of_int (Z.to_int z).

(** [%+d]: as [%d], and a ['+'] on the others. *)
Definition fmt_plus_d (z : Z) : string :=
  if (z <? 0)%Z then fmt_d z else "+" +:+ fmt_d z.

Definition is_digit (c : ascii) : bool := between "0" "9" c.

(** The value of a non-empty run of decimal digits. *)
Fixpoint digits_value (acc : N) (s : string) : option N :=
  match s with
  | "" => Some acc
  | String c s' =>
    if is_digit c then digits_value (10 * acc + (b2n c - 48)) s' else None
  end.

Definition parse_digits (s : string) : option N :=
  match s with "" => None | _ => digits_value 0 s end.

(** strconv.ParseInt(s, 10, 64): an optional sign and decimal digits, in
    the range of [int64]; [None] for a syntax or range error. *)
Definition strconv_ParseInt (s : string) : option Z :=
  let '(neg, ds) :=
    match s with
    | String "-" s' => (true, s')
    | String "+" s' => (false, s')
    | _ => (false, s)
    end in
  n ← parse_digits ds;
  let z := if neg then (- Z.of_N n)%Z else Z.of_N n in
  if ((- 2 ^ 63 <=? z) && (z <=? 2 ^ 63 - 1))%Z then Some z else None.

(** A finite float64: [(-1)^neg * mant * 2^exp] with [mant < 2^53] and
    [-1074 <= exp <= 971]. *)
Record float64 : Type := mkFloat64 { f_neg : bool; f_mant : N; f_exp : Z }.

(** [num / den] rounded to the nearest integer, ties to even. *)
Definition round_half_even (num den : N) : N :=
  let q := num / den in
  let r := num mod den in
  match 2 * r ?= den with
  | Lt => q
  | Gt => q + 1
  | Eq => if N.even q then q else q + 1
  end.

(** The float64 nearest to [num / den] (ties to even), [None] when it
    overflows; [den] is positive. *)
Definition float64_of_ratio (neg : bool) (num den : N) : option float64 :=
  if num =? 0 then Some (mkFloat64 neg 0 0)
  else
    let k0 := (Z.of_N (N.log2 num) - Z.of_N (N.log2 den))%Z in
    (* floor(log2(num/den)) is k0 or k0 - 1 *)
    let ge_pow2 (k : Z) : bool :=
      if (0 <=? k)%Z then den * 2 ^ Z.to_N k <=? num
      else den <=? num * 2 ^ Z.to_N (- k) in
    let k := if ge_pow2 k0 then k0 else (k0 - 1)%Z in
    let e := Z.max (k - 52) (-1074) in
    let m :=
      if (0 <=? e)%Z then round_half_even num (den * 2 ^ Z.to_N e)
      else round_half_even (num * 2 ^ Z.to_N (- e)) den in
    let '(m, e) := if m =? 2 ^ 53 then (2 ^ 52, (e + 1)%Z) else (m, e) in
    if (971 <? e)%Z then None else Some (mkFloat64 neg m e).

(** Splits a decimal literal [digits[.digits][(e|E)[+|-]digits]] into the
    integer digits, the fraction digits and the exponent. *)
Definition split_decimal (s : string) : option (string * string * Z) :=
  let '(mant, ex) :=
    match strings_Index s "e", strings_Index s "E" with
    | Some i, _ | None, Some i => (str_take i s, Some (str_drop (S i) s))
    | None, None => (s, None)
    end in
  let '(ip, fp) :=
    match strings_Index mant "." with
    | Some i => (str_take i mant, Some (str_drop (S i) mant))
    | None => (mant, None)
    end in
  _ ← parse_digits ip;
  fp ← match fp with
       | Some f => _ ← parse_digits f; Some f
       | None => Some ""
       end;
  e ← match ex with
      | Some x =>
        let '(eneg, ds) :=
          match x with
          | String "-" x' => (true, x')
          | String "+" x' => (false, x')
          | _ => (false, x)
          end in
        n ← parse_digits ds;
        Some (if eneg then (- Z.of_N n)%Z else Z.of_N n)
      | None => Some 0%Z
      end;
  Some (ip, fp, e).

(** strconv.ParseFloat(s, 64) on a decimal literal: the nearest float64;
    [None] for a syntax error or a value that overflows. *)
Definition strconv_ParseFloat (s : string) : option float64 :=
  let '(neg, body) :=
    match s with
    | String "-" s' => (true, s')
    | String "+" s' => (false, s')
    | _ => (false, s)
    end in
  '(ip, fp, e) ← split_decimal body;
  d ← digits_value 0 (ip +:+ fp);
  let e10 := (e - Z.of_nat (String.length fp))%Z in
  if (0 <=? e10)%Z then float64_of_ratio neg (d * 10 ^ Z.to_N e10) 1
  else float64_of_ratio neg d (10 ^ Z.to_N (- e10)).

Fixpoint str_repeat (c : ascii) (n : nat) : string :=
  match n with
  | O => ""
  | S k => String c (str_repeat c k)
  end.

Definition zero_pad (width : nat) (s : string) : string :=
  str_repeat "0" (width - String.length s) +:+ s.

(** [%.6f]: the exact value rounded to six decimals (ties to even), with
    the sign of the float. *)
Definition fmt_f6 (x : float64) : string :=
  let scaled :=
    if (0 <=? f_exp x)%Z
    then round_half_even (f_mant x * 2 ^ Z.to_N (f_exp x) * 10 ^ 6) 1
    else round_half_even (f_mant x * 10 ^ 6) (2 ^ Z.to_N (- f_exp x)) in
  (if f_neg x then "-" else "")
  +:+ fmt_d (Z.of_N (scaled / 10 ^ 6)) +:+ "."
  +:+ zero_pad 6 (fmt_d (Z.of_N (scaled mod 10 ^ 6))).

(* ================================================================== *)
(** * encoding/json: the scanner *)

(** A JSON document.  A number keeps its literal, as the decoder converts
    it only when it knows the destination type; an object keeps its members
    in input order, duplicates included. *)
#[local] Unset Elimination Schemes.
Inductive json : Type :=
| JNull
| JBool (b : bool)
| JNumber (lit : string)
| JString (s : string)
| JArray (elems : list json)
| JObject (members : list (string * json)).
#[local] Set Elimination Schemes.

Definition DQUOTE : ascii := "034".
Definition BACKSLASH : ascii := "092".

Definition is_json_space (c : ascii) : bool :=
  let n := b2n c in (n =? 0x20) || (n =? 0x09) || (n =? 0x0D) || (n =? 0x0A).

Fixpoint skip_ws (s : string) : string :=
  match s with
  | String c s' => if is_json_space c then skip_ws s' else s
  | "" => ""
  end.

Fixpoint span_digits (s : string) : string * string :=
  match s with
  | String c s' =>
    if is_digit c then let '(d, r) := span_digits s' in (String c d, r)
    else ("", s)
  | "" => ("", "")
  end.

(** The number grammar of the scanner: an optional minus sign; a zero, or
    a digit from 1 to 9 and any digits; optionally a dot and one digit or
    more; optionally [e] or [E], an optional sign and one digit or more.
    The literal and the rest of the input. *)
Definition scan_number (s : string) : option (string * string) :=
  let '(sign, s1) :=
    match s with
    | String c s' => if byte_eqb c "-" then ("-", s') else ("", s)
    | "" => ("", s)
    end in
  '(ip, s2) ←
    match s1 with
    | String c r =>
      if byte_eqb c "0" then Some ("0", r)
      else if between "1" "9" c then Some (span_digits s1)
      else None
    | "" => None
    end;
  '(fp, s3) ←
    match s2 with
    | String c r =>
      if byte_eqb c "." then
        let '(d, r') := span_digits r in
        if str_is_empty d then None else Some ("." +:+ d, r')
      else Some ("", s2)
    | "" => Some ("", s2)
    end;
  '(ep, s4) ←
    match s3 with
    | String c r =>
      if byte_eqb c "e" || byte_eqb c "E" then
        let '(sg, r1) :=
          match r with
          | String c' r' =>
            if byte_eqb c' "+" then ("+", r')
            else if byte_eqb c' "-" then ("-", r')
            else ("", r)
          | "" => ("", r)
          end in
        let '(d, r2) := span_digits r1 in
        if str_is_empty d then None else Some (String c (sg +:+ d), r2)
      else Some ("", s3)
    | "" => Some ("", s3)
    end;
  Some (sign +:+ ip +:+ fp +:+ ep, s4).

Definition hex_value (c : ascii) : option N :=
  if between "0" "9" c then Some (b2n c - 48)
  else if between "a" "f" c then Some (b2n c - 87)
  else if between "A" "F" c then Some (b2n c - 55)
  else None.

(** [getu4] without the leading backslash-u: four hex digits. *)
Definition hex4 (a b c d : ascii) : option N :=
  x ← hex_value a; y ← hex_value b; z ← hex_value c; w ← hex_value d;
  Some (x * 4096 + y * 256 + z * 16 + w).

Definition utf16_IsSurrogate (r : N) : bool := (0xD800 <=? r) && (r <? 0xE000).

(** utf16.DecodeRune *)
Definition utf16_DecodeRune (r1 r2 : N) : N :=
  if (0xD800 <=? r1) && (r1 <? 0xDC00) && (0xDC00 <=? r2) && (r2 <? 0xE000)
  then N.lor (N.shiftl (r1 - 0xD800) 10) (r2 - 0xDC00) + 0x10000
  else RuneError.

(** The body of a string literal, after the opening quote: what the scanner
    accepts and [unquote] produces (escapes resolved, a surrogate pair
    combined, a lone surrogate and an invalid UTF-8 byte replaced by
    U+FFFD), and the input after the closing quote.  [skip] counts the
    remaining bytes of a valid multi-byte rune, which are copied. *)
Fixpoint scan_string (skip : nat) (s : string) : option (string * string) :=
  let cons (c : ascii) (r : option (string * string))
    : option (string * string) :=
    '(t, rest) ← r; Some (String c t, rest) in
  let app (p : string) (r : option (string * string))
    : option (string * string) :=
    '(t, rest) ← r; Some (p +:+ t, rest) in
  match s with
  | "" => None
  | String c s' =>
    match skip with
    | S k => cons c (scan_string k s')
    | O =>
      if byte_eqb c DQUOTE then Some ("", s')
      else if byte_eqb c BACKSLASH then
        match s' with
        | "" => None
        | String e s'' =>
          if byte_eqb e "u" then
            match s'' with
            | String h1 (String h2 (String h3 (String h4 s3))) =>
              r ← hex4 h1 h2 h3 h4;
              if utf16_IsSurrogate r then
                match s3 with
                | String b1 (String u1
                    (String g1 (String g2 (String g3 (String g4 s4))))) =>
                  if byte_eqb b1 BACKSLASH && byte_eqb u1 "u" then
                    match hex4 g1 g2 g3 g4 with
                    | Some r1 =>
                      let dec := utf16_DecodeRune r r1 in
                      if dec =? RuneError
                      then app (utf8_EncodeRune RuneError) (scan_string 0 s3)
                      else app (utf8_EncodeRune dec) (scan_string 0 s4)
                    | None => app (utf8_EncodeRune RuneError) (scan_string 0 s3)
                    end
                  else app (utf8_EncodeRune RuneError) (scan_string 0 s3)
                | _ => app (utf8_EncodeRune RuneError) (scan_string 0 s3)
                end
              else app (utf8_EncodeRune r) (scan_string 0 s3)
            | _ => None
            end
          else if byte_eqb e DQUOTE || byte_eqb e BACKSLASH || byte_eqb e "/"
          then cons e (scan_string 0 s'')
          else if byte_eqb e "b" then cons "008"%char (scan_string 0 s'')
          else if byte_eqb e "f" then cons "012"%char (scan_string 0 s'')
          else if byte_eqb e "n" then cons "010"%char (scan_string 0 s'')
          else if byte_eqb e "r" then cons "013"%char (scan_string 0 s'')
          else if byte_eqb e "t" then cons "009"%char (scan_string 0 s'')
          else None
        end
      else if b2n c <? 0x20 then None
      else if b2n c <? RuneSelf then cons c (scan_string 0 s')
      else
        let '(_, size) := utf8_DecodeRuneInString s in
        match size with
        | S (S k) => cons c (scan_string (S k) s')
        | _ => app (utf8_EncodeRune RuneError) (scan_string 0 s')
        end
    end
  end.

Definition maxNestingDepth : N := 10000.

(** One value, and the input after it.  [depth] is the number of arrays and
    objects open around it; [fuel] bounds the recursion. *)
Fixpoint parse_value (fuel : nat) (depth : N) (s : string) : option (json * string) :=
  match fuel with
  | O => None
  | S k =>
    match skip_ws s with
    | "" => None
    | String c r as r0 =>
      if byte_eqb c "{" then
        if maxNestingDepth <? depth + 1 then None
        else
          match skip_ws r with
          | "" => None
          | String c' r' as r1 =>
            if byte_eqb c' "}" then Some (JObject [], r')
            else '(ms, r2) ← parse_members k (depth + 1) r1; Some (JObject ms, r2)
          end
      else if byte_eqb c "[" then
        if maxNestingDepth <? depth + 1 then None
        else
          match skip_ws r with
          | "" => None
          | String c' r' as r1 =>
            if byte_eqb c' "]" then Some (JArray [], r')
            else '(vs, r2) ← parse_elems k (depth + 1) r1; Some (JArray vs, r2)
          end
      else if byte_eqb c DQUOTE then
        '(t, r') ← scan_string 0 r; Some (JString t, r')
      else if byte_eqb c "t" then
        if strings_HasPrefix r0 "true" then Some (JBool true, str_drop 4 r0)
        else None
      else if byte_eqb c "f" then
        if strings_HasPrefix r0 "false" then Some (JBool false, str_drop 5 r0)
        else None
      else if byte_eqb c "n" then
        if strings_HasPrefix r0 "null" then Some (JNull, str_drop 4 r0)
        else None
      else '(lit, r') ← scan_number r0; Some (JNumber lit, r')
    end
  end
with parse_elems (fuel : nat) (depth : N) (s : string) : option (list json * string) :=
  match fuel with
  | O => None
  | S k =>
    '(v, r) ← parse_value k depth s;
    match skip_ws r with
    | "" => None
    | String c r' =>
      if byte_eqb c "," then
        '(vs, r'') ← parse_elems k depth r'; Some (v :: vs, r'')
      else if byte_eqb c "]" then Some ([v], r')
      else None
    end
  end
with parse_members (fuel : nat) (depth : N) (s : string)
  : option (list (string * json) * string) :=
  match fuel with
  | O => None
  | S k =>
    match skip_ws s with
    | "" => None
    | String c r =>
      if negb (byte_eqb c DQUOTE) then None
      else
        '(key, r1) ← scan_string 0 r;
        match skip_ws r1 with
        | "" => None
        | String c1 r2 =>
          if negb (byte_eqb c1 ":") then None
          else
            '(v, r3) ← parse_value k depth r2;
            match skip_ws r3 with
            | "" => None
            | String c3 r4 =>
              if byte_eqb c3 "," then
                '(ms, r5) ← parse_members k depth r4; Some ((key, v) :: ms, r5)
              else if byte_eqb c3 "}" then Some ([(key, v)], r4)
              else None
            end
        end
    end
  end.

(** [checkValid] and the scan of the decoder: the document that [data]
    spells, [None] for a syntax error. *)
Definition json_parse (data : string) : option json :=
  '(v, r) ← parse_value (2 * String.length data + 2) 0 data;
  if str_is_empty (skip_ws r) then Some v else None.

(** Lets a document be written with ['] for the quote. *)
Definition quoted (s : string) : string :=
  string_of_list_ascii
    ((λ c, if byte_eqb c "'" then DQUOTE else c) <$> list_ascii_of_string s).

(* ================================================================== *)
(** * encoding/json: decoding into Go values *)

(** A slice: its elements [s[0:len]], and what its backing array holds
    behind them, [s[len:cap]], as far as it was ever written (the rest of
    the array is zero).  The decoder stores element [i] of an array into
    whatever the backing array holds at [i]. *)
Record slice (T : Type) : Type := mkSlice { elems : list T; spare : list T }.
Arguments mkSlice {T} elems spare.
Arguments elems {T} s.
Arguments spare {T} s.

Definition nil_slice {T} : slice T := mkSlice [] [].

(** Every decoder stores a document into a Go value: it takes the value
    the destination holds and gives the value it holds afterwards. The
    decoder of Go records the first type error and goes on; as every caller
    drops the value when there is an error, the model stops there. *)
Definition decoder (T : Type) : Type := json → T → result T.

Definition type_error (v : json) (ty : string) : error :=
  match v with
  | JNull => json_UnmarshalTypeError "null" ty
  | JBool _ => json_UnmarshalTypeError "bool" ty
  | JNumber _ => json_UnmarshalTypeError "number" ty
  | JString _ => json_UnmarshalTypeError "string" ty
  | JArray _ => json_UnmarshalTypeError "array" ty
  | JObject _ => json_UnmarshalTypeError "object" ty
  end.

(** [literalStore] into a [string]; [null] leaves the value as it is. *)
Definition dec_string : decoder string := λ v cur,
  match v with
  | JNull => Ok cur
  | JString s => Ok s
  | _ => Err (type_error v "string")
  end.

Definition dec_bool : decoder bool := λ v cur,
  match v with
  | JNull => Ok cur
  | JBool b => Ok b
  | _ => Err (type_error v "bool")
  end.

(** Into an [int]: the literal must be an integer of 64 bits. *)
Definition dec_int : decoder Z := λ v cur,
  match v with
  | JNull => Ok cur
  | JNumber lit =>
    match strconv_ParseInt lit with
    | Some z => Ok z
    | None => Err (json_UnmarshalTypeError ("number " +:+ lit) "int")
    end
  | _ => Err (type_error v "int")
  end.

Definition float64_zero : float64 := mkFloat64 false 0 0.

Definition dec_float64 : decoder float64 := λ v cur,
  match v with
  | JNull => Ok cur
  | JNumber lit =>
    match strconv_ParseFloat lit with
    | Some x => Ok x
    | None => Err (json_UnmarshalTypeError ("number " +:+ lit) "float64")
    end
  | _ => Err (type_error v "float64")
  end.

(** Into a pointer: [null] sets it to nil; any other value is stored into
    the pointee, which is allocated (zero) when the pointer is nil. *)
Definition dec_ptr {T} (zero : T) (dec : decoder T) : decoder (option T) :=
  λ v cur,
  match v with
  | JNull => Ok None
  | _ => x ← dec v (default zero cur); Ok (Some x)
  end.

Fixpoint dec_elems {T} (zero : T) (dec : decoder T) (vs : list json)
  (backing : list T) : result (list T) :=
  match vs with
  | [] => Ok []
  | v :: vs' =>
    x ← dec v (hd zero backing);
    xs ← dec_elems zero dec vs' (tl backing);
    Ok (x :: xs)
  end.

(** [decodeState.array] into a slice: [null] sets it to nil; an empty array
    gives a new empty slice; the elements of an array are stored one by one
    over the backing array, and the slice is cut to their number. *)
Definition dec_slice {T} (ty : string) (zero : T) (dec : decoder T)
  : decoder (slice T) := λ v cur,
  match v with
  | JNull => Ok nil_slice
  | JArray [] => Ok nil_slice
  | JArray vs =>
    let backing := elems cur ++ spare cur in
    xs ← dec_elems zero dec vs backing;
    Ok (mkSlice xs (drop (length vs) backing))
  | _ => Err (type_error v ty)
  end.

(** The case folding of [foldName], as far as it can reach a name of ASCII
    letters: an ASCII letter is folded to upper case, and so are the two
    runes outside ASCII that fold to one, U+017F (to S) and U+212A (to K);
    every other byte stays. *)
Fixpoint foldName (s : string) : string :=
  match s with
  | String "197" (String "191" s') => String "S" (foldName s')
  | String "226" (String "132" (String "170" s')) => String "K" (foldName s')
  | String c s' =>
    String (if between "a" "z" c then n2b (b2n c - 32) else c) (foldName s')
  | "" => ""
  end.

(** The field a key names: the one with exactly this name and, when there
    is none, the first whose folded name is the folded key. *)
Definition field_index (names : list string) (key : string) : option nat :=
  match list_find (λ n, n = key) names with
  | Some (i, _) => Some i
  | None => fst <$> list_find (λ n, foldName n = foldName key) names
  end.

Fixpoint dec_members {T} (field : string → decoder T)
  (ms : list (string * json)) (cur : T) : result T :=
  match ms with
  | [] => Ok cur
  | (key, v) :: ms' => x ← field key v cur; dec_members field ms' x
  end.

(** [decodeState.object] into a struct: the members are stored in input
    order, each into the field its key names; a key that names no field is
    skipped; [null] leaves the struct as it is. *)
Definition dec_struct {T} (ty : string) (field : string → decoder T)
  : decoder T := λ v cur,
  match v with
  | JNull => Ok cur
  | JObject ms => dec_members field ms cur
  | _ => Err (type_error v ty)
  end.

(** json.Unmarshal(data, &x) for a zero [x]. *)
Definition json_Unmarshal {T} (dec : decoder T) (zero : T) (data : string)
  : result T :=
  match json_parse data with
  | None => Err json_SyntaxError
  | Some v => dec v zero
  end.

(* ================================================================== *)
(** * Package format: the record shapes *)

Record Location : Type := mkLocation {
  Location_ID : string;
  Location_Name : string;
  Location_Type : string;
  Location_Latitude : option float64;
  Location_Longitude : option float64;
  Location_Distance : option Z
}.

Record Line : Type := mkLine { Line_Name : string }.

Record Stopover : Type := mkStopover {
  Stopover_When : string;
  Stopover_PlannedWhen : string;
  Stopover_Delay : option Z;
  Stopover_Platform : string;
  Stopover_PlannedPlatform : string;
  Stopover_Cancelled : bool;
  Stopover_Direction : string;
  Stopover_Line : Line;
  Stopover_Stop : Location
}.

Record Leg : Type := mkLeg {
  Leg_Origin : option Location;
  Leg_Destination : option Location;
  Leg_Departure : string;
  Leg_PlannedDep : string;
  Leg_Arrival : string;
  Leg_PlannedArr : string
}.

Record Journey : Type := mkJourney {
  Journey_Legs : slice Leg;
  Journey_Transfers : Z
}.

Record JourneysResponse : Type := mkJourneysResponse {
  JourneysResponse_Journeys : slice Journey
}.

Record TripStop : Type := mkTripStop {
  TripStop_Stop : Location;
  TripStop_Arrival : string;
  TripStop_PlannedArrival : string;
  TripStop_Departure : string;
  TripStop_PlannedDeparture : string;
  TripStop_Platform : string;
  TripStop_PlannedPlatform : string
}.

Record Trip : Type := mkTrip {
  Trip_Line : Line;
  Trip_Stopovers : slice TripStop
}.

Record TripResponse : Type := mkTripResponse { TripResponse_Trip : Trip }.

Record Position : Type := mkPosition {
  Position_Latitude : option float64;
  Position_Longitude : option float64
}.

Record Movement : Type := mkMovement {
  Movement_Line : Line;
  Movement_Direction : string;
  Movement_Location : Position
}.

Record RadarResponse : Type := mkRadarResponse {
  RadarResponse_Movements : slice Movement
}.

(** The zero values. *)
Definition Location_zero : Location := mkLocation "" "" "" None None None.
Definition Line_zero : Line := mkLine "".
Definition Stopover_zero : Stopover :=
  mkStopover "" "" None "" "" false "" Line_zero Location_zero.
Definition Leg_zero : Leg := mkLeg None None "" "" "" "".
Definition Journey_zero : Journey := mkJourney nil_slice 0.
Definition JourneysResponse_zero : JourneysResponse :=
  mkJourneysResponse nil_slice.
Definition TripStop_zero : TripStop :=
  mkTripStop Location_zero "" "" "" "" "" "".
Definition Trip_zero : Trip := mkTrip Line_zero nil_slice.
Definition TripResponse_zero : TripResponse := mkTripResponse Trip_zero.
Definition Position_zero : Position := mkPosition None None.
Definition Movement_zero : Movement := mkMovement Line_zero "" Position_zero.
Definition RadarResponse_zero : RadarResponse := mkRadarResponse nil_slice.

(** ** The decoders the struct tags describe *)

Definition dec_Location : decoder Location :=
  dec_struct "format.Location" (λ key v l,
    let '(mkLocation id name ty lat lon dist) := l in
    match field_index
            ["id"; "name"; "type"; "latitude"; "longitude"; "distance"] key with
    | Some 0%nat => x ← dec_string v id; Ok (mkLocation x name ty lat lon dist)
    | Some 1%nat => x ← dec_string v name; Ok (mkLocation id x ty lat lon dist)
    | Some 2%nat => x ← dec_string v ty; Ok (mkLocation id name x lat lon dist)
    | Some 3%nat =>
      x ← dec_ptr float64_zero dec_float64 v lat;
      Ok (mkLocation id name ty x lon dist)
    | Some 4%nat =>
      x ← dec_ptr float64_zero dec_float64 v lon;
      Ok (mkLocation id name ty lat x dist)
    | Some 5%nat =>
      x ← dec_ptr 0%Z dec_int v dist; Ok (mkLocation id name ty lat lon x)
    | _ => Ok l
    end).

Definition dec_Line : decoder Line :=
  dec_struct "format.Line" (λ key v l,
    match field_index ["name"] key with
    | Some 0%nat => x ← dec_string v (Line_Name l); Ok (mkLine x)
    | _ => Ok l
    end).

Definition dec_Stopover : decoder Stopover :=
  dec_struct "format.Stopover" (λ key v s,
    let '(mkStopover when pwhen delay plat pplat canc dir line stop) := s in
    match field_index
            ["when"; "plannedWhen"; "delay"; "platform"; "plannedPlatform";
             "cancelled"; "direction"; "line"; "stop"] key with
    | Some 0%nat =>
      x ← dec_string v when;
      Ok (mkStopover x pwhen delay plat pplat canc dir line stop)
    | Some 1%nat =>
      x ← dec_string v pwhen;
      Ok (mkStopover when x delay plat pplat canc dir line stop)
    | Some 2%nat =>
      x ← dec_ptr 0%Z dec_int v delay;
      Ok (mkStopover when pwhen x plat pplat canc dir line stop)
    | Some 3%nat =>
      x ← dec_string v plat;
      Ok (mkStopover when pwhen delay x pplat canc dir line stop)
    | Some 4%nat =>
      x ← dec_string v pplat;
      Ok (mkStopover when pwhen delay plat x canc dir line stop)
    | Some 5%nat =>
      x ← dec_bool v canc;
      Ok (mkStopover when pwhen delay plat pplat x dir line stop)
    | Some 6%nat =>
      x ← dec_string v dir;
      Ok (mkStopover when pwhen delay plat pplat canc x line stop)
    | Some 7%nat =>
      x ← dec_Line v line;
      Ok (mkStopover when pwhen delay plat pplat canc dir x stop)
    | Some 8%nat =>
      x ← dec_Location v stop;
      Ok (mkStopover when pwhen delay plat pplat canc dir line x)
    | _ => Ok s
    end).

Definition dec_Leg : decoder Leg :=
  dec_struct "format.Leg" (λ key v l,
    let '(mkLeg orig dest dep pdep arr parr) := l in
    match field_index
            ["origin"; "destination"; "departure"; "plannedDeparture";
             "arrival"; "plannedArrival"] key with
    | Some 0%nat =>
      x ← dec_ptr Location_zero dec_Location v orig;
      Ok (mkLeg x dest dep pdep arr parr)
    | Some 1%nat =>
      x ← dec_ptr Location_zero dec_Location v dest;
      Ok (mkLeg orig x dep pdep arr parr)
    | Some 2%nat => x ← dec_string v dep; Ok (mkLeg orig dest x pdep arr parr)
    | Some 3%nat => x ← dec_string v pdep; Ok (mkLeg orig dest dep x arr parr)
    | Some 4%nat => x ← dec_string v arr; Ok (mkLeg orig dest dep pdep x parr)
    | Some 5%nat => x ← dec_string v parr; Ok (mkLeg orig dest dep pdep arr x)
    | _ => Ok l
    end).

Definition dec_Journey : decoder Journey :=
  dec_struct "format.Journey" (λ key v j,
    match field_index ["legs"; "transfers"] key with
    | Some 0%nat =>
      x ← dec_slice "[]format.Leg" Leg_zero dec_Leg v (Journey_Legs j);
      Ok (mkJourney x (Journey_Transfers j))
    | Some 1%nat =>
      x ← dec_int v (Journey_Transfers j); Ok (mkJourney (Journey_Legs j) x)
    | _ => Ok j
    end).

Definition dec_JourneysResponse : decoder JourneysResponse :=
  dec_struct "format.JourneysResponse" (λ key v r,
    match field_index ["journeys"] key with
    | Some 0%nat =>
      x ← dec_slice "[]format.Journey" Journey_zero dec_Journey v
            (JourneysResponse_Journeys r);
      Ok (mkJourneysResponse x)
    | _ => Ok r
    end).

Definition dec_TripStop : decoder TripStop :=
  dec_struct "format.TripStop" (λ key v t,
    let '(mkTripStop stop arr parr dep pdep plat pplat) := t in
    match field_index
            ["stop"; "arrival"; "plannedArrival"; "departure";
             "plannedDeparture"; "platform"; "plannedPlatform"] key with
    | Some 0%nat =>
      x ← dec_Location v stop; Ok (mkTripStop x arr parr dep pdep plat pplat)
    | Some 1%nat =>
      x ← dec_string v arr; Ok (mkTripStop stop x parr dep pdep plat pplat)
    | Some 2%nat =>
      x ← dec_string v parr; Ok (mkTripStop stop arr x dep pdep plat pplat)
    | Some 3%nat =>
      x ← dec_string v dep; Ok (mkTripStop stop arr parr x pdep plat pplat)
    | Some 4%nat =>
      x ← dec_string v pdep; Ok (mkTripStop stop arr parr dep x plat pplat)
    | Some 5%nat =>
      x ← dec_string v plat; Ok (mkTripStop stop arr parr dep pdep x pplat)
    | Some 6%nat =>
      x ← dec_string v pplat; Ok (mkTripStop stop arr parr dep pdep plat x)
    | _ => Ok t
    end).

Definition dec_Trip : decoder Trip :=
  dec_struct "format.Trip" (λ key v t,
    match field_index ["line"; "stopovers"] key with
    | Some 0%nat => x ← dec_Line v (Trip_Line t); Ok (mkTrip x (Trip_Stopovers t))
    | Some 1%nat =>
      x ← dec_slice "[]format.TripStop" TripStop_zero dec_TripStop v
            (Trip_Stopovers t);
      Ok (mkTrip (Trip_Line t) x)
    | _ => Ok t
    end).

Definition dec_TripResponse : decoder TripResponse :=
  dec_struct "format.TripResponse" (λ key v r,
    match field_index ["trip"] key with
    | Some 0%nat => x ← dec_Trip v (TripResponse_Trip r); Ok (mkTripResponse x)
    | _ => Ok r
    end).

Definition dec_Position : decoder Position :=
  dec_struct "format.Position" (λ key v p,
    match field_index ["latitude"; "longitude"] key with
    | Some 0%nat =>
      x ← dec_ptr float64_zero dec_float64 v (Position_Latitude p);
      Ok (mkPosition x (Position_Longitude p))
    | Some 1%nat =>
      x ← dec_ptr float64_zero dec_float64 v (Position_Longitude p);
      Ok (mkPosition (Position_Latitude p) x)
    | _ => Ok p
    end).

Definition dec_Movement : decoder Movement :=
  dec_struct "format.Movement" (λ key v m,
    let '(mkMovement line dir loc) := m in
    match field_index ["line"; "direction"; "location"] key with
    | Some 0%nat => x ← dec_Line v line; Ok (mkMovement x dir loc)
    | Some 1%nat => x ← dec_string v dir; Ok (mkMovement line x loc)
    | Some 2%nat => x ← dec_Position v loc; Ok (mkMovement line dir x)
    | _ => Ok m
    end).

Definition dec_RadarResponse : decoder RadarResponse :=
  dec_struct "format.RadarResponse" (λ key v r,
    match field_index ["movements"] key with
    | Some 0%nat =>
      x ← dec_slice "[]format.Movement" Movement_zero dec_Movement v
            (RadarResponse_Movements r);
      Ok (mkRadarResponse x)
    | _ => Ok r
    end).

(** ** The fallback rules *)

Definition formatFloat (value : option float64) : string :=
  match value with
  | None => "-"
  | Some x => fmt_f6 x
  end.

Definition formatInt (value : option Z) : string :=
  match value with
  | None => "-"
  | Some n => fmt_d n
  end.

(** Go's [%] and [/] on [int] truncate towards zero: [Z.rem], [Z.quot]. *)
Definition formatDelay (delay : option Z) : string :=
  match delay with
  | None => "-"
  | Some d =>
    if (d =? 0)%Z then "0m"
    else if (Z.rem d 60 =? 0)%Z then fmt_plus_d (Z.quot d 60) +:+ "m"
    else fmt_plus_d d +:+ "s"
  end.

Definition pickString (primary fallback : string) : string :=
  if negb (str_is_empty (strings_TrimSpace primary)) then primary
  else if negb (str_is_empty (strings_TrimSpace fallback)) then fallback
  else "-".

Definition pickTime (primary fallback : string) : string :=
  if negb (str_is_empty (strings_TrimSpace primary)) then primary
  else if negb (str_is_empty (strings_TrimSpace fallback)) then fallback
  else "-".

Definition locationName (loc : option Location) : string :=
  match loc with
  | None => "-"
  | Some l =>
    if negb (str_is_empty (strings_TrimSpace (Location_Name l)))
    then Location_Name l
    else Location_ID l
  end.

(** ** The renderers *)

(** [fmt.Sprintf] with a format of [%s] verbs separated by tabs and ended
    by a newline. *)
Fixpoint tab_row (fields : list string) : string :=
  match fields with
  | [] => NL
  | [f] => f +:+ NL
  | f :: fs => f +:+ TAB +:+ tab_row fs
  end.

Definition no_results (withHeader : bool) : string :=
  if withHeader then "no results" +:+ NL else "".

(** The [json.Unmarshal] calls of the five renderers, each into a zero
    variable of its type. *)
Definition Unmarshal_Locations (data : string) : result (slice Location) :=
  json_Unmarshal (dec_slice "[]format.Location" Location_zero dec_Location)
    nil_slice data.

Definition Unmarshal_Stopovers (data : string) : result (slice Stopover) :=
  json_Unmarshal (dec_slice "[]format.Stopover" Stopover_zero dec_Stopover)
    nil_slice data.

Definition Unmarshal_Journeys (data : string) : result JourneysResponse :=
  json_Unmarshal dec_JourneysResponse JourneysResponse_zero data.

Definition Unmarshal_Trip (data : string) : result TripResponse :=
  json_Unmarshal dec_TripResponse TripResponse_zero data.

Definition Unmarshal_Radar (data : string) : result RadarResponse :=
  json_Unmarshal dec_RadarResponse RadarResponse_zero data.

(** LocationsPlain formats /locations responses into line-based text. *)
Definition LocationsPlain (data : string) (withHeader : bool) : result string :=
  match Unmarshal_Locations data with
  | Err err => Err err
  | Ok locations =>
    if (length (elems locations) =? 0)%nat then Ok (no_results withHeader)
    else
      let b := "" in
      let b :=
        if withHeader
        then b +:+ tab_row ["id"; "name"; "type"; "latitude"; "longitude";
                            "distance_m"]
        else b in
      Ok (fold_left (λ b loc,
            b +:+ tab_row [Location_ID loc; Location_Name loc;
                           Location_Type loc;
                           formatFloat (Location_Latitude loc);
                           formatFloat (Location_Longitude loc);
                           formatInt (Location_Distance loc)])
            (elems locations) b)
  end.

(** StopoversPlain formats departures/arrivals into line-based text. *)
Definition StopoversPlain (data : string) (withHeader : bool) : result string :=
  match Unmarshal_Stopovers data with
  | Err err => Err err
  | Ok stopovers =>
    if (length (elems stopovers) =? 0)%nat then Ok (no_results withHeader)
    else
      let b := "" in
      let b :=
        if withHeader
        then b +:+ tab_row ["time"; "line"; "direction"; "platform"; "delay";
                            "status"]
        else b in
      Ok (fold_left (λ b s,
            let timeValue := pickTime (Stopover_When s) (Stopover_PlannedWhen s) in
            let platform :=
              pickString (Stopover_Platform s) (Stopover_PlannedPlatform s) in
            let status := if Stopover_Cancelled s then "cancelled" else "-" in
            b +:+ tab_row [timeValue; Line_Name (Stopover_Line s);
                           Stopover_Direction s; platform;
                           formatDelay (Stopover_Delay s); status])
            (elems stopovers) b)
  end.

(** JourneysPlain formats /journeys responses into line-based text. *)
Definition JourneysPlain (data : string) (withHeader : bool) : result string :=
  match Unmarshal_Journeys data with
  | Err err => Err err
  | Ok resp =>
    let journeys := elems (JourneysResponse_Journeys resp) in
    if (length journeys =? 0)%nat then Ok (no_results withHeader)
    else
      let b := "" in
      let b :=
        if withHeader
        then b +:+ tab_row ["departure"; "origin"; "arrival"; "destination";
                            "transfers"]
        else b in
      Ok (fold_left (λ b journey,
            let legs := elems (Journey_Legs journey) in
            match legs with
            | [] => b                                   (* continue *)
            | first :: _ =>
              let last := List.last legs first in
              let origin := locationName (Leg_Origin first) in
              let destination := locationName (Leg_Destination last) in
              let departure :=
                pickTime (Leg_Departure first) (Leg_PlannedDep first) in
              let arrival := pickTime (Leg_Arrival last) (Leg_PlannedArr last) in
              b +:+ tab_row [departure; origin; arrival; destination;
                             fmt_d (Journey_Transfers journey)]
            end)
            journeys b)
  end.

(** TripPlain formats /trips/{id} responses into line-based text. *)
Definition TripPlain (data : string) (withHeader : bool) : result string :=
  match Unmarshal_Trip data with
  | Err err => Err err
  | Ok resp =>
    let trip := TripResponse_Trip resp in
    if (length (elems (Trip_Stopovers trip)) =? 0)%nat
    then Ok (no_results withHeader)
    else
      let b := "" in
      let b :=
        if withHeader
        then b +:+ tab_row ["line"; "stop"; "arrival"; "departure"; "platform"]
        else b in
      Ok (fold_left (λ b stop,
            let arrival :=
              pickTime (TripStop_Arrival stop) (TripStop_PlannedArrival stop) in
            let departure :=
              pickTime (TripStop_Departure stop)
                (TripStop_PlannedDeparture stop) in
            let platform :=
              pickString (TripStop_Platform stop)
                (TripStop_PlannedPlatform stop) in
            b +:+ tab_row [Line_Name (Trip_Line trip);
                           Location_Name (TripStop_Stop stop);
                           arrival; departure; platform])
            (elems (Trip_Stopovers trip)) b)
  end.

(** RadarPlain formats /radar responses into line-based text. *)
Definition RadarPlain (data : string) (withHeader : bool) : result string :=
  match Unmarshal_Radar data with
  | Err err => Err err
  | Ok resp =>
    let movements := elems (RadarResponse_Movements resp) in
    if (length movements =? 0)%nat then Ok (no_results withHeader)
    else
      let b := "" in
      let b :=
        if withHeader
        then b +:+ tab_row ["line"; "direction"; "latitude"; "longitude"]
        else b in
      Ok (fold_left (λ b movement,
            b +:+ tab_row [Line_Name (Movement_Line movement);
                           Movement_Direction movement;
                           formatFloat
                             (Position_Latitude (Movement_Location movement));
                           formatFloat
                             (Position_Longitude (Movement_Location movement))])
            movements b)
  end.

(* ================================================================== *)
(** * net/url *)

Inductive encoding : Type :=
| encodePath
| encodePathSegment
| encodeHost
| encodeZone
| encodeUserPassword
| encodeQueryComponent
| encodeFragment.

#[global] Instance encoding_eq_dec : EqDecision encoding.
Proof. solve_decision. Defined.

Definition byte_in (c : ascii) (set : string) : bool := str_any (byte_eqb c) set.

(** Characters of a host that are never escaped ([shouldEscape], first
    switch). *)
Definition host_plain : string :=
  "!$&'()*+,;=:[]<>" +:+ String DQUOTE "".

(** url.shouldEscape *)
Definition shouldEscape (c : ascii) (mode : encoding) : bool :=
  if between "a" "z" c || between "A" "Z" c || between "0" "9" c then false
  else if (bool_decide (mode = encodeHost) || bool_decide (mode = encodeZone))
          && byte_in c host_plain then false
  else if byte_in c "-_.~" then false
  else if byte_in c "$&+,/:;=?@" then
    match mode with
    | encodePath => byte_eqb c "?"
    | encodePathSegment => byte_in c "/;,?"
    | encodeUserPassword => byte_in c "@/?:"
    | encodeQueryComponent => true
    | encodeFragment => false
    | _ => true
    end
  else if bool_decide (mode = encodeFragment) && byte_in c "!()*" then false
  else true.

Definition upperhex (n : N) : ascii :=
  default "0"%char (String.get (N.to_nat n) "0123456789ABCDEF").

(** url.escape *)
Fixpoint escape (s : string) (mode : encoding) : string :=
  match s with
  | "" => ""
  | String c s' =>
    if byte_eqb c " " && bool_decide (mode = encodeQueryComponent)
    then String "+" (escape s' mode)
    else if shouldEscape c mode
    then String "%" (String (upperhex (N.shiftr (b2n c) 4))
                       (String (upperhex (N.land (b2n c) 15)) (escape s' mode)))
    else String c (escape s' mode)
  end.

Definition ishex (c : ascii) : bool := bool_decide (is_Some (hex_value c)).
Definition unhex (c : ascii) : N := default 0 (hex_value c).

(** url.unescape: the first malformed escape or forbidden host byte is
    the error; otherwise the decoded string. *)
Fixpoint unescape (s : string) (mode : encoding) : result string :=
  match s with
  | "" => Ok ""
  | String "%" (String h1 (String h2 rest)) =>
    if negb (ishex h1 && ishex h2) then Err (url_EscapeError (str_take 3 s))
    else
      let esc := str_take 3 s in
      let v := N.lor (N.shiftl (unhex h1) 4) (unhex h2) in
      if bool_decide (mode = encodeHost) && (unhex h1 <? 8)
         && negb (String.eqb esc "%25")
      then Err (url_EscapeError esc)
      else if bool_decide (mode = encodeZone) && negb (String.eqb esc "%25")
              && negb (v =? 0x20) && shouldEscape (n2b v) encodeHost
      then Err (url_EscapeError esc)
      else t ← unescape rest mode; Ok (String (n2b v) t)
  | String "%" _ => Err (url_EscapeError (str_take 3 s))
  | String "+" s' =>
    t ← unescape s' mode;
    Ok (String (if bool_decide (mode = encodeQueryComponent) then " " else "+")%char t)
  | String c s' =>
    if (bool_decide (mode = encodeHost) || bool_decide (mode = encodeZone))
       && (b2n c <? 0x80) && shouldEscape c encodeHost
    then Err (url_InvalidHostError (String c ""))
    else t ← unescape s' mode; Ok (String c t)
  end.

Definition url_QueryEscape (s : string) : string := escape s encodeQueryComponent.
Definition url_QueryUnescape (s : string) : result string :=
  unescape s encodeQueryComponent.

(** url.Userinfo *)
Record Userinfo : Type := mkUserinfo {
  username : string;
  password : string;
  passwordSet : bool
}.

(** url.URL *)
Record URL : Type := mkURL {
  Scheme : string;
  Opaque : string;
  User : option Userinfo;
  Host : string;
  Path : string;
  RawPath : string;
  OmitHost : bool;
  ForceQuery : bool;
  RawQuery : string;
  Fragment : string;
  RawFragment : string
}.

Definition URL_zero : URL := mkURL "" "" None "" "" "" false false "" "" "".

(** url.getScheme: [None] for the error "missing protocol scheme". *)
Fixpoint getScheme_go (i : nat) (whole s : string) : option (string * string) :=
  match s with
  | "" => Some ("", whole)
  | String c s' =>
    if between "a" "z" c || between "A" "Z" c then getScheme_go (S i) whole s'
    else if between "0" "9" c || byte_in c "+-." then
      if (i =? 0)%nat then Some ("", whole) else getScheme_go (S i) whole s'
    else if byte_eqb c ":" then
      if (i =? 0)%nat then None else Some (str_take i whole, s')
    else Some ("", whole)
  end.

Definition getScheme (rawURL : string) : result (string * string) :=
  match getScheme_go 0 rawURL rawURL with
  | Some r => Ok r
  | None => Err (errorString "missing protocol scheme")
  end.

Definition stringContainsCTLByte (s : string) : bool :=
  str_any (λ c, (b2n c <? 0x20) || (b2n c =? 0x7F)) s.

Definition validOptionalPort (port : string) : bool :=
  match port with
  | "" => true
  | String c ds => byte_eqb c ":" && str_all is_digit ds
  end.

Definition validUserinfo (s : string) : bool :=
  str_all (λ c, between "A" "Z" c || between "a" "z" c || between "0" "9" c
                || byte_in c "-._:~!$&'()*+,;=%@") s.

(** url.parseHost *)
Definition parseHost (host : string) : result string :=
  if strings_HasPrefix host "[" then
    match strings_LastIndex host "]" with
    | None => Err (errorString "missing ']' in host")
    | Some i =>
      let colonPort := str_drop (i + 1) host in
      if negb (validOptionalPort colonPort)
      then Err (errorString "invalid port after host")
      else
        match strings_Index (str_take i host) "%25" with
        | Some zone =>
          host1 ← unescape (str_take zone host) encodeHost;
          host2 ← unescape (str_slice zone i host) encodeZone;
          host3 ← unescape (str_drop i host) encodeHost;
          Ok (host1 +:+ host2 +:+ host3)
        | None => unescape host encodeHost
        end
    end
  else
    match strings_LastIndex host ":" with
    | Some i =>
      if negb (validOptionalPort (str_drop i host))
      then Err (errorString "invalid port after host")
      else unescape host encodeHost
    | None => unescape host encodeHost
    end.

(** url.parseAuthority *)
Definition parseAuthority (authority : string)
  : result (option Userinfo * string) :=
  match strings_LastIndex authority "@" with
  | None => host ← parseHost authority; Ok (None, host)
  | Some i =>
    host ← parseHost (str_drop (i + 1) authority);
    let userinfo := str_take i authority in
    if negb (validUserinfo userinfo)
    then Err (errorString "net/url: invalid userinfo")
    else if negb (strings_Contains userinfo ":") then
      u ← unescape userinfo encodeUserPassword;
      Ok (Some (mkUserinfo u "" false), host)
    else
      let '(uname, pass, _) := strings_Cut userinfo ":" in
      u ← unescape uname encodeUserPassword;
      p ← unescape pass encodeUserPassword;
      Ok (Some (mkUserinfo u p true), host)
  end.

(** URL.setPath: [Path] is the decoded path, [RawPath] is kept only when
    the default encoding of [Path] differs from the input. *)
Definition setPath (p : string) : result (string * string) :=
  path ← unescape p encodePath;
  if String.eqb p (escape path encodePath) then Ok (path, "") else Ok (path, p).

Definition setFragment (f : string) : result (string * string) :=
  frag ← unescape f encodeFragment;
  if String.eqb f (escape frag encodeFragment) then Ok (frag, "")
  else Ok (frag, f).

(** url.parse(rawURL, viaRequest = false) *)
Definition url_parse (rawURL : string) : result URL :=
  if stringContainsCTLByte rawURL
  then Err (errorString "net/url: invalid control character in URL")
  else if String.eqb rawURL "*"
  then Ok (mkURL "" "" None "" "*" "" false false "" "" "")
  else
    '(scheme, rest) ← getScheme rawURL;
    let scheme := strings_ToLower scheme in
    let '(rest, forceQuery, rawQuery) :=
      if strings_HasSuffix rest "?" && (strings_Count rest "?" =? 1)%nat
      then (str_take (String.length rest - 1) rest, true, "")
      else let '(r, q, _) := strings_Cut rest "?" in (r, false, q) in
    if negb (strings_HasPrefix rest "/") && negb (str_is_empty scheme)
    then Ok (mkURL scheme rest None "" "" "" false forceQuery rawQuery "" "")
    else if negb (strings_HasPrefix rest "/")
            && strings_Contains (strings_Cut rest "/").1.1 ":"
    then Err (errorString "first path segment in URL cannot contain colon")
    else
      '(user, host, rest, omitHost) ←
        (if (negb (str_is_empty scheme) || negb (strings_HasPrefix rest "///"))
            && strings_HasPrefix rest "//"
         then
           let authority := str_drop 2 rest in
           let '(authority, rest) :=
             match strings_Index authority "/" with
             | Some i => (str_take i authority, str_drop i authority)
             | None => (authority, "")
             end in
           '(user, host) ← parseAuthority authority;
           Ok (user, host, rest, false)
         else if negb (str_is_empty scheme) && strings_HasPrefix rest "/"
         then Ok (None, "", rest, true)
         else Ok (None, "", rest, false));
      '(path, rawPath) ← setPath rest;
      Ok (mkURL scheme "" user host path rawPath omitHost forceQuery rawQuery
            "" "").

(** url.Parse *)
Definition url_Parse (rawURL : string) : result URL :=
  let '(u, frag, _) := strings_Cut rawURL "#" in
  match url_parse u with
  | Err err => Err (url_Error "parse" u err)
  | Ok url =>
    if str_is_empty frag then Ok url
    else
      match setFragment frag with
      | Err err => Err (url_Error "parse" rawURL err)
      | Ok (f, rf) =>
        Ok (mkURL (Scheme url) (Opaque url) (User url) (Host url) (Path url)
              (RawPath url) (OmitHost url) (ForceQuery url) (RawQuery url) f rf)
      end
  end.

(** url.validEncoded *)
Definition validEncoded (s : string) (mode : encoding) : bool :=
  str_all (λ c, byte_in c "!$&'()*+,;=:@[]%" || negb (shouldEscape c mode)) s.

(** URL.EscapedPath *)
Definition URL_EscapedPath (u : URL) : string :=
  if negb (str_is_empty (RawPath u)) && validEncoded (RawPath u) encodePath
     && match unescape (RawPath u) encodePath with
        | Ok p => String.eqb p (Path u)
        | Err _ => false
        end
  then RawPath u
  else if String.eqb (Path u) "*" then "*"
  else escape (Path u) encodePath.

(** URL.EscapedFragment *)
Definition URL_EscapedFragment (u : URL) : string :=
  if negb (str_is_empty (RawFragment u))
     && validEncoded (RawFragment u) encodeFragment
     && match unescape (RawFragment u) encodeFragment with
        | Ok f => String.eqb f (Fragment u)
        | Err _ => false
        end
  then RawFragment u
  else escape (Fragment u) encodeFragment.

Definition Userinfo_String (u : Userinfo) : string :=
  escape (username u) encodeUserPassword
  +:+ (if passwordSet u then ":" +:+ escape (password u) encodeUserPassword
       else "").

(** URL.String, up to the path: scheme, opaque part or authority and path. *)
Definition URL_String_head (u : URL) : string :=
  let buf := if str_is_empty (Scheme u) then "" else Scheme u +:+ ":" in
  if negb (str_is_empty (Opaque u)) then buf +:+ Opaque u
  else
    let buf :=
      if negb (str_is_empty (Scheme u)) || negb (str_is_empty (Host u))
         || bool_decide (is_Some (User u))
      then
        if OmitHost u && str_is_empty (Host u) && bool_decide (User u = None)
        then buf
        else
          let buf :=
            if negb (str_is_empty (Host u)) || negb (str_is_empty (Path u))
               || bool_decide (is_Some (User u))
            then buf +:+ "//" else buf in
          let buf :=
            match User u with
            | Some ui => buf +:+ Userinfo_String ui +:+ "@"
            | None => buf
            end in
          if negb (str_is_empty (Host u))
          then buf +:+ escape (Host u) encodeHost else buf
      else buf in
    let path := URL_EscapedPath u in
    let buf :=
      if negb (str_is_empty path) && negb (strings_HasPrefix path "/")
         && negb (str_is_empty (Host u))
      then buf +:+ "/" else buf in
    let buf :=
      if str_is_empty buf && strings_Contains (strings_Cut path "/").1.1 ":"
      then buf +:+ "./" else buf in
    buf +:+ path.

(** URL.String, the query: written when [ForceQuery] is set or [RawQuery]
    is not empty. *)
Definition URL_String_query (u : URL) : string :=
  if ForceQuery u || negb (str_is_empty (RawQuery u))
  then "?" +:+ RawQuery u else "".

Definition URL_String_fragment (u : URL) : string :=
  if negb (str_is_empty (Fragment u)) then "#" +:+ URL_EscapedFragment u else "".

(** URL.String *)
Definition URL_String (u : URL) : string :=
  URL_String_head u +:+ URL_String_query u +:+ URL_String_fragment u.

(** url.Values: a map from a key to its values. *)
Abbreviation Values := (gmap string (list string)).

(** The loop body of Values.Encode for one key: every value of the key
    is written as [key=value], after an ampersand unless the buffer is
    empty. *)
Definition encode_key (v : Values) (buf : string) (k : string) : string :=
  let vs := default [] (v !! k) in
  let keyEscaped := url_QueryEscape k in
  fold_left (λ buf x,
      (if str_is_empty buf then buf else buf +:+ "&")
      +:+ keyEscaped +:+ "=" +:+ url_QueryEscape x)
    vs buf.

(** Values.Encode: the keys are sorted (bytewise). *)
Definition Values_Encode (v : Values) : string :=
  if (size v =? 0)%nat then ""
  else
    let keys := merge_sort String.le (fst <$> map_to_list v) in
    fold_left (encode_key v) keys "".

(** url.parseQuery: one step for each segment between ampersands; the
    map is filled even when there is an error, and the error is the first
    one (the semicolon error overrides). *)
Fixpoint parseQuery (fuel : nat) (m : Values) (err : option error)
  (query : string) : Values * option error :=
  match fuel with
  | O => (m, err)
  | S fuel' =>
    if str_is_empty query then (m, err)
    else
      let '(key, query, _) := strings_Cut query "&" in
      if strings_Contains key ";" then
        parseQuery fuel' m
          (Some (errorString "invalid semicolon separator in query")) query
      else if str_is_empty key then parseQuery fuel' m err query
      else
        let '(key, value, _) := strings_Cut key "=" in
        match url_QueryUnescape key with
        | Err err1 =>
          parseQuery fuel' m (Some (default err1 err)) query
        | Ok key =>
          match url_QueryUnescape value with
          | Err err1 =>
            parseQuery fuel' m (Some (default err1 err)) query
          | Ok value =>
            parseQuery fuel' (<[key := default [] (m !! key) ++ [value]]> m)
              err query
          end
        end
  end.

(** url.ParseQuery *)
Definition url_ParseQuery (query : string) : Values * option error :=
  parseQuery (S (String.length query)) ∅ None query.

(* ================================================================== *)
(** * net/http: the reason phrases *)

(** http.StatusText *)
Definition http_StatusText (code : Z) : string :=
  match code with
  | 100 => "Continue"
  | 101 => "Switching Protocols"
  | 102 => "Processing"
  | 103 => "Early Hints"
  | 200 => "OK"
  | 201 => "Created"
  | 202 => "Accepted"
  | 203 => "Non-Authoritative Information"
  | 204 => "No Content"
  | 205 => "Reset Content"
  | 206 => "Partial Content"
  | 207 => "Multi-Status"
  | 208 => "Already Reported"
  | 226 => "IM Used"
  | 300 => "Multiple Choices"
  | 301 => "Moved Permanently"
  | 302 => "Found"
  | 303 => "See Other"
  | 304 => "Not Modified"
  | 305 => "Use Proxy"
  | 307 => "Temporary Redirect"
  | 308 => "Permanent Redirect"
  | 400 => "Bad Request"
  | 401 => "Unauthorized"
  | 402 => "Payment Required"
  | 403 => "Forbidden"
  | 404 => "Not Found"
  | 405 => "Method Not Allowed"
  | 406 => "Not Acceptable"
  | 407 => "Proxy Authentication Required"
  | 408 => "Request Timeout"
  | 409 => "Conflict"
  | 410 => "Gone"
  | 411 => "Length Required"
  | 412 => "Precondition Failed"
  | 413 => "Request Entity Too Large"
  | 414 => "Request URI Too Long"
  | 415 => "Unsupported Media Type"
  | 416 => "Requested Range Not Satisfiable"
  | 417 => "Expectation Failed"
  | 418 => "I'm a teapot"
  | 421 => "Misdirected Request"
  | 422 => "Unprocessable Entity"
  | 423 => "Locked"
  | 424 => "Failed Dependency"
  | 425 => "Too Early"
  | 426 => "Upgrade Required"
  | 428 => "Precondition Required"
  | 429 => "Too Many Requests"
  | 431 => "Request Header Fields Too Large"
  | 451 => "Unavailable For Legal Reasons"
  | 500 => "Internal Server Error"
  | 501 => "Not Implemented"
  | 502 => "Bad Gateway"
  | 503 => "Service Unavailable"
  | 504 => "Gateway Timeout"
  | 505 => "HTTP Version Not Supported"
  | 506 => "Variant Also Negotiates"
  | 507 => "Insufficient Storage"
  | 508 => "Loop Detected"
  | 510 => "Not Extended"
  | 511 => "Network Authentication Required"
  | _ => ""
  end%Z.

Definition http_StatusOK : Z := 200.
Definition http_StatusMultipleChoices : Z := 300.

(* ================================================================== *)
(** * Package api *)

(** Config defines HTTP client configuration for the DB transport API.
    [Timeout] is a [time.Duration], in nanoseconds. *)
Record Config : Type := mkConfig {
  BaseURL : string;
  Timeout : Z;
  UserAgent : string
}.

Definition time_Second : Z := 1000000000.

(** The [http.Client] of the client: only its timeout is configured. *)
Record http_Client : Type := mk_http_Client { http_Timeout : Z }.

(** Client wraps a base URL and an HTTP client for GET requests. *)
Record Client : Type := mkClient {
  baseURL : option URL;
  http : http_Client;
  userAgent : string
}.

(** NewClient creates a new API client from config. *)
Definition NewClient (cfg : Config) : result Client :=
  if str_is_empty (strings_TrimSpace (BaseURL cfg))
  then Err (errorString "base URL is required")
  else
    match url_Parse (BaseURL cfg) with
    | Err err => Err (wrapError "parse base URL: " err)
    | Ok base =>
      let timeout :=
        if (Timeout cfg <=? 0)%Z then (10 * time_Second)%Z else Timeout cfg in
      Ok (mkClient (Some base) (mk_http_Client timeout) (UserAgent cfg))
    end.

(** The local [resolved] of [buildURL] when it is rendered: the base with
    the merged path and the query of the parameters. *)
Definition resolveURL (base : URL) (path : string) (params : Values) : URL :=
  let cleanPath := strings_TrimLeft path "/" in
  let basePath := strings_TrimRight (Path base) "/" in
  let mergedPath :=
    if negb (str_is_empty basePath) then basePath +:+ "/" +:+ cleanPath
    else "/" +:+ cleanPath in
  let rawQuery := if (0 <? size params)%nat then Values_Encode params else "" in
  mkURL (Scheme base) (Opaque base) (User base) (Host base) mergedPath
    (RawPath base) (OmitHost base) (ForceQuery base) rawQuery
    (Fragment base) (RawFragment base).

Definition buildURL (base : option URL) (path : string) (params : Values)
  : result string :=
  match base with
  | None => Err (errorString "base URL is nil")
  | Some base => Ok (URL_String (resolveURL base path params))
  end.

(** URL returns the fully qualified URL for the given path and
    parameters. *)
Definition Client_URL (c : Client) (path : string) (params : Values)
  : result string :=
  buildURL (baseURL c) path params.

(** The request [Get] hands to the HTTP client. *)
Record Request : Type := mkRequest {
  Method : string;
  Target : string;
  Header : list (string * string)
}.

(** What the HTTP client answers: the status code, and the outcome of
    reading the whole body. *)
Record Response : Type := mkResponse {
  StatusCode : Z;
  ReadAll : result string
}.

(** [http.Client.Do] for one request: a response, or the error of the
    network (refused connection, expired timeout, ...). *)
Definition Transport : Type := Request → result Response.

(** http.NewRequestWithContext(ctx, "GET", url, nil) for a context that
    is not nil: it fails when the target does not parse. *)
Definition http_NewRequest (method target : string) : result Request :=
  match url_Parse target with
  | Err err => Err err
  | Ok _ => Ok (mkRequest method target [])
  end.

Definition Header_Set (key value : string) (r : Request) : Request :=
  mkRequest (Method r) (Target r)
    (filter (λ kv, kv.1 ≠ key) (Header r) ++ [(key, value)]).

(** The request of [Get]: a GET of the target that accepts JSON, with the
    user agent of the client when it has one. *)
Definition newRequest (c : Client) (urlStr : string) : result Request :=
  match http_NewRequest "GET" urlStr with
  | Err err => Err (wrapError "create request: " err)
  | Ok req =>
    let req := Header_Set "Accept" "application/json" req in
    if negb (str_is_empty (userAgent c))
    then Ok (Header_Set "User-Agent" (userAgent c) req) else Ok req
  end.

(** Get issues a GET request against the API and returns the response
    body. *)
Definition Get (do : Transport) (c : option Client) (path : string)
  (params : Values) : result string :=
  match c with
  | None => Err (errorString "client is not configured")
  | Some c =>
    match baseURL c with
    | None => Err (errorString "client is not configured")
    | Some _ =>
      match buildURL (baseURL c) path params with
      | Err err => Err err
      | Ok urlStr =>
        match newRequest c urlStr with
        | Err err => Err err
        | Ok req =>
          match do req with
          | Err err => Err (wrapError "request failed: " err)
          | Ok resp =>
            match ReadAll resp with
            | Err err => Err (wrapError "read response: " err)
            | Ok body =>
              if (StatusCode resp <? http_StatusOK)%Z
                 || (http_StatusMultipleChoices <=? StatusCode resp)%Z
              then Err (errHTTP (mkHTTPError (StatusCode resp) body))
              else Ok body
            end
          end
        end
      end
    end
  end.

Definition summarize (msg : string) (max : nat) : string :=
  if (String.length msg <=? max)%nat then msg
  else str_take max msg +:+ "...".

(** HTTPError.Error *)
Definition HTTPError_Error (e : HTTPError) : string :=
  let msg := strings_TrimSpace (Body e) in
  let msg := if str_is_empty msg then http_StatusText (Status e) else msg in
  let msg := summarize msg 200 in
  "request failed: " +:+ fmt_d (Status e) +:+ " " +:+ msg.

(* ================================================================== *)
(** * Vocabulary of the statements *)

(** The sign [%+d] prints, and the decimal digits of a magnitude. *)
Definition sign_of (z : Z) : string := if (z <? 0)%Z then "-" else "+".
Definition decimal (n : Z) : string := NilZero.string_of_uint (N.to_uint (Z.to_N n)).

(** The header line of the journeys table. *)
Definition journeys_header (withHeader : bool) : string :=
  if withHeader
  then tab_row ["departure"; "origin"; "arrival"; "destination"; "transfers"]
  else "".

Definition has_legs (j : Journey) : bool :=
  negb (length (elems (Journey_Legs j)) =? 0)%nat.

(** The line of a journey with legs: departure and origin of its first
    leg, arrival and destination of its last leg, and its transfers. *)
Definition journey_row (j : Journey) : string :=
  let legs := elems (Journey_Legs j) in
  let first := hd Leg_zero legs in
  let last := List.last legs Leg_zero in
  tab_row [pickTime (Leg_Departure first) (Leg_PlannedDep first);
           locationName (Leg_Origin first);
           pickTime (Leg_Arrival last) (Leg_PlannedArr last);
           locationName (Leg_Destination last);
           fmt_d (Journey_Transfers j)].

(** A URI is absolute when it has a scheme ([URL.IsAbs]). *)
Definition URL_IsAbs (u : URL) : bool := negb (str_is_empty (Scheme u)).

(** The first byte of a scheme is a letter. *)
Definition is_letter (c : ascii) : bool :=
  between "a" "z" c || between "A" "Z" c.

(** What [escape] writes for one byte. *)
Definition esc1 (c : ascii) (mode : encoding) : string :=
  escape (String c "") mode.

(** One [key=value] pair of a query string. *)
Definition enc_pair (p : string * string) : string :=
  url_QueryEscape p.1 +:+ "=" +:+ url_QueryEscape p.2.

(** The pieces joined by ampersands. *)
Definition amp_all (l : list string) : string :=
  str_concat ((λ p, "&" +:+ p) <$> l).

Definition join_amp (l : list string) : string :=
  match l with
  | [] => ""
  | p :: l' => p +:+ amp_all l'
  end.

(** The pairs of a parameter set, key by key in the given order, the
    values of a key in their own order. *)
Definition pairs_of (v : Values) (keys : list string) : list (string * string) :=
  keys ≫= (λ k, (λ x, (k, x)) <$> default [] (v !! k)).

(** [m[key] = append(m[key], value)] *)
Definition add_value (m : Values) (p : string * string) : Values :=
  <[p.1 := default [] (m !! p.1) ++ [p.2]]> m.

(** A byte that separates nothing in a query string. *)
Definition plain_byte (c : ascii) : bool := negb (byte_in c "&=;").

(** Trimming of ASCII white space at both ends, on plain bytes. *)
Fixpoint drop_spaces (s : string) : string :=
  match s with
  | String c s' => if asciiSpace c then drop_spaces s' else s
  | "" => ""
  end.

Definition trim_ascii (s : string) : string :=
  String.rev (drop_spaces (String.rev (drop_spaces s))).

Definition is_ascii (s : string) : bool := str_all (λ c, b2n c <? RuneSelf) s.

(* ================================================================== *)
(** * Strings: basic facts *)

Section string_facts.
Implicit Types s t u : string.

Lemma app_cons c s t : String c s +:+ t = String c (s +:+ t).
Proof. reflexivity. Qed.

Lemma app_nil_l s : "" +:+ s = s.
Proof. reflexivity. Qed.

Lemma app_nil_r s : s +:+ "" = s.
Proof. induction s as [|c s IH]; [done | by rewrite app_cons, IH]. Qed.

Lemma app_assoc s t u : (s +:+ t) +:+ u = s +:+ (t +:+ u).
Proof. induction s as [|c s IH]; [done | by rewrite !app_cons, IH]. Qed.

Lemma app_length s t :
  String.length (s +:+ t) = (String.length s + String.length t)%nat.
Proof.
  induction s as [|c s IH]; [done | rewrite app_cons; simpl; by rewrite IH].
Qed.

Lemma str_is_empty_true s : str_is_empty s = true ↔ s = "".
Proof. by destruct s. Qed.

Lemma str_is_empty_false s : str_is_empty s = false ↔ s ≠ "".
Proof. by destruct s. Qed.

Lemma str_take_length n s :
  (n ≤ String.length s)%nat → String.length (str_take n s) = n.
Proof.
  revert s; induction n as [|n IH]; intros [|c s] Hn; simpl in *;
    try done; try lia.
  rewrite IH; [done | lia].
Qed.

Lemma str_take_drop n s : str_take n s +:+ str_drop n s = s.
Proof.
  revert s; induction n as [|n IH]; intros [|c s]; simpl; try done.
  by rewrite app_cons, IH.
Qed.

Lemma str_take_all n s : (String.length s ≤ n)%nat → str_take n s = s.
Proof.
  revert s; induction n as [|n IH]; intros [|c s] Hn; simpl in *;
    try done; try lia.
  rewrite IH; [done | lia].
Qed.

Lemma rev_app_app s t : String.rev_app s t = String.rev s +:+ t.
Proof.
  unfold String.rev. revert t.
  induction s as [|c s IH]; intros t; simpl; [done|].
  rewrite (IH (String c "")), IH, app_assoc. done.
Qed.

Lemma rev_cons c s : String.rev (String c s) = String.rev s +:+ String c "".
Proof. unfold String.rev at 1. simpl. apply rev_app_app. Qed.

Lemma rev_app s t : String.rev (s +:+ t) = String.rev t +:+ String.rev s.
Proof.
  induction s as [|c s IH].
  - by rewrite app_nil_l, app_nil_r.
  - by rewrite app_cons, !rev_cons, IH, app_assoc.
Qed.

Lemma rev_involutive s : String.rev (String.rev s) = s.
Proof.
  induction s as [|c s IH]; [done|].
  by rewrite rev_cons, rev_app, IH.
Qed.

Lemma rev_length s : String.length (String.rev s) = String.length s.
Proof.
  induction s as [|c s IH]; [done|].
  rewrite rev_cons, app_length, IH. simpl. lia.
Qed.

Lemma str_repeat_snoc c n :
  str_repeat c n +:+ String c "" = String c (str_repeat c n).
Proof.
  induction n as [|n IH]; [done | simpl; by rewrite app_cons, IH].
Qed.

Lemma rev_repeat c n : String.rev (str_repeat c n) = str_repeat c n.
Proof.
  induction n as [|n IH]; [done|].
  simpl. by rewrite rev_cons, IH, str_repeat_snoc.
Qed.

Lemma byte_eqb_eq a b : byte_eqb a b = true ↔ a = b.
Proof. apply Ascii.eqb_eq. Qed.

Lemma byte_eqb_refl a : byte_eqb a a = true.
Proof. by apply byte_eqb_eq. Qed.
Lemma str_all_app p s t : str_all p (s +:+ t) = str_all p s && str_all p t.
Proof.
  unfold str_all. induction s as [|c s IH]; [done|].
  rewrite app_cons. simpl. by rewrite IH, andb_assoc.
Qed.

End string_facts.

(* ================================================================== *)
(** * The fallback rule for delays *)

Section delay.
Local Open Scope Z_scope.

Lemma fmt_d_nonneg z : 0 <= z → fmt_d z = decimal z.
Proof. intros Hz. destruct z; [done | done | lia]. Qed.

Lemma fmt_d_neg z : z < 0 → fmt_d z = "-" +:+ decimal (- z).
Proof. intros Hz. destruct z; [lia | lia | done]. Qed.

Lemma fmt_plus_d_sign z : fmt_plus_d z = sign_of z +:+ decimal (Z.abs z).
Proof.
  unfold fmt_plus_d, sign_of.
  destruct (Z.ltb_spec z 0) as [Hneg | Hpos].
  - rewrite fmt_d_neg, Z.abs_neq by lia. done.
  - rewrite fmt_d_nonneg, Z.abs_eq by lia. done.
Qed.

Lemma rem_60_divide d : Z.rem d 60 = 0 ↔ (60 | d).
Proof. rewrite Z.rem_divide by lia. done. Qed.

Lemma quot_60_sign d :
  d ≠ 0 → (60 | d) →
  sign_of (Z.quot d 60) = sign_of d ∧ Z.abs (Z.quot d 60) = Z.abs d / 60.
Proof.
  intros Hd [k ->]. rewrite Z.quot_mul by lia.
  assert (k ≠ 0) by lia.
  split.
  - unfold sign_of.
    destruct (Z.ltb_spec k 0), (Z.ltb_spec (k * 60) 0); done || lia.
  - rewrite Z.abs_mul. change (Z.abs 60) with 60.
    by rewrite Z.div_mul.
Qed.
End delay.

(** C7. [formatDelay] of an absent delay is "-"; of zero, "0m"; of a delay
    that is not zero and is a multiple of 60, the sign, the whole number
    of minutes and "m"; of any other delay, the sign, the whole number of
    seconds and "s"; nothing is rounded.  120 gives "+2m" and -90 gives
    "-90s". *)
Theorem formatDelay_spec :
  formatDelay None = "-"
  ∧ formatDelay (Some 0%Z) = "0m"
  ∧ (∀ d : Z, d ≠ 0%Z → (60 | d)%Z →
       formatDelay (Some d) = sign_of d +:+ decimal (Z.abs d / 60) +:+ "m")
  ∧ (∀ d : Z, ¬ (60 | d)%Z →
       formatDelay (Some d) = sign_of d +:+ decimal (Z.abs d) +:+ "s")
  ∧ formatDelay (Some 120%Z) = "+2m"
  ∧ formatDelay (Some (-90)%Z) = "-90s".
Proof.
  split_and!; try reflexivity.
  - intros d Hd Hdiv. unfold formatDelay.
    destruct (Z.eqb_spec d 0) as [|_]; [done|].
    destruct (Z.eqb_spec (Z.rem d 60) 0) as [_ | Hrem].
    + rewrite fmt_plus_d_sign.
      destruct (quot_60_sign d Hd Hdiv) as [-> ->].
      by rewrite app_assoc.
    + by apply rem_60_divide in Hdiv.
  - intros d Hdiv. unfold formatDelay.
    destruct (Z.eqb_spec d 0) as [-> | _].
    { destruct Hdiv. by exists 0%Z. }
    destruct (Z.eqb_spec (Z.rem d 60) 0) as [Hrem | _].
    { by apply rem_60_divide in Hrem. }
    by rewrite fmt_plus_d_sign, app_assoc.
Qed.

Lemma formatDelay_spec_witness :
  formatDelay (Some 180%Z) = "+3m" ∧ formatDelay (Some (-61)%Z) = "-61s".
Proof.
  destruct formatDelay_spec as (_ & _ & Hmin & Hsec & _).
  split.
  - apply (Hmin 180%Z); [lia | by exists 3%Z].
  - apply (Hsec (-61)%Z). intros [k Hk]. lia.
Defined.

(* ================================================================== *)
(** * The renderers *)

Lemma length_zero_nil {A} (l : list A) : (length l =? 0)%nat = true ↔ l = [].
Proof. destruct l; simpl; split; congruence. Qed.

Lemma length_zero_cons {A} (l : list A) : (length l =? 0)%nat = false ↔ l ≠ [].
Proof. destruct l; simpl; split; congruence. Qed.

(** A loop that appends one piece for each element writes the pieces in
    input order behind what the builder holds. *)
Lemma fold_append {A} (f : A → string) (l : list A) (b : string) :
  fold_left (λ b x, b +:+ f x) l b = b +:+ str_concat (f <$> l).
Proof.
  revert b. induction l as [|x l IH]; intros b; simpl.
  - by rewrite app_nil_r.
  - by rewrite IH, app_assoc.
Qed.

Lemma str_concat_app (l1 l2 : list string) :
  str_concat (l1 ++ l2) = str_concat l1 +:+ str_concat l2.
Proof.
  induction l1 as [|s l1 IH]; simpl; [done | by rewrite IH, app_assoc].
Qed.

Lemma last_cons_default {A} (l : list A) (x d d' : A) :
  List.last (x :: l) d = List.last (x :: l) d'.
Proof.
  revert x. induction l as [|y l IH]; intros x; [done|].
  change (List.last (y :: l) d = List.last (y :: l) d'). apply IH.
Qed.

(** An object at the top level cannot be stored into a slice. *)
Lemma Unmarshal_Stopovers_object data members :
  json_parse data = Some (JObject members) →
  Unmarshal_Stopovers data
  = Err (json_UnmarshalTypeError "object" "[]format.Stopover").
Proof. intros H. unfold Unmarshal_Stopovers, json_Unmarshal. by rewrite H. Qed.

Lemma StopoversPlain_object data members withHeader :
  json_parse data = Some (JObject members) →
  StopoversPlain data withHeader
  = Err (json_UnmarshalTypeError "object" "[]format.Stopover").
Proof.
  intros H. unfold StopoversPlain.
  by rewrite (Unmarshal_Stopovers_object _ _ H).
Qed.

(** The two tests of the package that pass. *)
Example TestLocationsPlain :
  LocationsPlain
    (quoted ("[{'id':'123','name':'Berlin Hbf','type':'station',"
             +:+ "'latitude':52.525,'longitude':13.369,'distance':120}]"))
    true
  = Ok (tab_row ["id"; "name"; "type"; "latitude"; "longitude"; "distance_m"]
        +:+ tab_row ["123"; "Berlin Hbf"; "station"; "52.525000"; "13.369000";
                     "120"]).
Proof. vm_compute. reflexivity. Qed.

Example TestStopoversPlain :
  StopoversPlain
    (quoted ("[{'when':'2024-01-01T12:00:00+01:00','line':{'name':'S1'},"
             +:+ "'direction':'Frohnau','platform':'1','delay':120,"
             +:+ "'cancelled':false}]"))
    true
  = Ok (tab_row ["time"; "line"; "direction"; "platform"; "delay"; "status"]
        +:+ tab_row ["2024-01-01T12:00:00+01:00"; "S1"; "Frohnau"; "1";
                     "+2m"; "-"]).
Proof. vm_compute. reflexivity. Qed.

(** C1. The payload of [TestStopoversPlainEnvelope], one record under the
    "departures" field, is not unwrapped: [StopoversPlain] returns the type
    error of the decoder, whereas the bare array of the same record is
    rendered as the test expects. *)
Theorem StopoversPlain_envelope_not_unwrapped :
  let A := "[{'when':'2024-01-01T12:00:00+01:00','line':{'name':'S1'},"
           +:+ "'direction':'Frohnau','platform':'1','delay':0,"
           +:+ "'cancelled':false}]" in
  StopoversPlain (quoted ("{'departures':" +:+ A +:+ "}")) true
  = Err (json_UnmarshalTypeError "object" "[]format.Stopover")
  ∧ StopoversPlain (quoted A) true
    = Ok (tab_row ["time"; "line"; "direction"; "platform"; "delay"; "status"]
          +:+ tab_row ["2024-01-01T12:00:00+01:00"; "S1"; "Frohnau"; "1";
                       "0m"; "-"]).
Proof. split; vm_compute; reflexivity. Qed.

(** C10. The document [null] is not a decode error for any renderer: it
    decodes to no record, and is rendered as the empty result, "no results"
    and a newline with the header and the empty string without. *)
Theorem null_renders_no_results :
  (∀ withHeader : bool,
     LocationsPlain "null" withHeader = Ok (no_results withHeader)
     ∧ StopoversPlain "null" withHeader = Ok (no_results withHeader)
     ∧ JourneysPlain "null" withHeader = Ok (no_results withHeader)
     ∧ TripPlain "null" withHeader = Ok (no_results withHeader)
     ∧ RadarPlain "null" withHeader = Ok (no_results withHeader))
  ∧ no_results true = "no results" +:+ NL
  ∧ no_results false = "".
Proof. split; [intros [] | done]; vm_compute; done. Qed.

(** C8. Every renderer, on a payload that decodes to an empty record
    sequence, returns exactly "no results" and a newline when the header is
    asked for and exactly the empty string when it is not. *)
Theorem empty_renders_no_results (data : string) :
  (∀ locations, Unmarshal_Locations data = Ok locations →
     elems locations = [] →
     LocationsPlain data true = Ok ("no results" +:+ NL)
     ∧ LocationsPlain data false = Ok "")
  ∧ (∀ stopovers, Unmarshal_Stopovers data = Ok stopovers →
     elems stopovers = [] →
     StopoversPlain data true = Ok ("no results" +:+ NL)
     ∧ StopoversPlain data false = Ok "")
  ∧ (∀ resp, Unmarshal_Journeys data = Ok resp →
     elems (JourneysResponse_Journeys resp) = [] →
     JourneysPlain data true = Ok ("no results" +:+ NL)
     ∧ JourneysPlain data false = Ok "")
  ∧ (∀ resp, Unmarshal_Trip data = Ok resp →
     elems (Trip_Stopovers (TripResponse_Trip resp)) = [] →
     TripPlain data true = Ok ("no results" +:+ NL)
     ∧ TripPlain data false = Ok "")
  ∧ (∀ resp, Unmarshal_Radar data = Ok resp →
     elems (RadarResponse_Movements resp) = [] →
     RadarPlain data true = Ok ("no results" +:+ NL)
     ∧ RadarPlain data false = Ok "").
Proof.
  split_and!; intros x Hdec Hnil.
  - unfold LocationsPlain. by rewrite Hdec, Hnil.
  - unfold StopoversPlain. by rewrite Hdec, Hnil.
  - unfold JourneysPlain. by rewrite Hdec, Hnil.
  - unfold TripPlain. by rewrite Hdec, Hnil.
  - unfold RadarPlain. by rewrite Hdec, Hnil.
Qed.

Lemma empty_renders_no_results_witness :
  (LocationsPlain "[]" true = Ok ("no results" +:+ NL)
   ∧ LocationsPlain "[]" false = Ok "")
  ∧ (JourneysPlain "{}" true = Ok ("no results" +:+ NL)
     ∧ JourneysPlain "{}" false = Ok "").
Proof.
  split.
  - destruct (empty_renders_no_results "[]") as (H & _).
    apply (H nil_slice); reflexivity.
  - destruct (empty_renders_no_results "{}") as (_ & _ & H & _).
    apply (H JourneysResponse_zero); reflexivity.
Defined.

(** The loop of [JourneysPlain] writes nothing for a journey without legs
    and [journey_row] for any other. *)
Lemma journeys_loop (js : list Journey) (b : string) :
  fold_left (λ b journey,
      let legs := elems (Journey_Legs journey) in
      match legs with
      | [] => b
      | first :: _ =>
        let last := List.last legs first in
        let origin := locationName (Leg_Origin first) in
        let destination := locationName (Leg_Destination last) in
        let departure := pickTime (Leg_Departure first) (Leg_PlannedDep first) in
        let arrival := pickTime (Leg_Arrival last) (Leg_PlannedArr last) in
        b +:+ tab_row [departure; origin; arrival; destination;
                       fmt_d (Journey_Transfers journey)]
      end) js b
  = b +:+ str_concat (journey_row <$> filter (λ j, has_legs j = true) js).
Proof.
  revert b. induction js as [|j js IH]; intros b.
  - simpl. by rewrite app_nil_r.
  - cbn [fold_left]. rewrite IH. unfold has_legs at 2.
    destruct (elems (Journey_Legs j)) as [|first legs] eqn:Hlegs.
    + rewrite filter_cons_False; [done|]. unfold has_legs. by rewrite Hlegs.
    + rewrite filter_cons_True by (unfold has_legs; by rewrite Hlegs).
      cbn [fmap list_fmap str_concat]. rewrite app_assoc. do 2 f_equal.
      unfold journey_row. rewrite Hlegs. cbn [hd].
      by rewrite (last_cons_default legs first first Leg_zero).
Qed.

(** C9. In the table of a journeys payload that decodes to at least one
    journey, the lines are those of the journeys with legs, in input order,
    each made of the departure and origin of its first leg, the arrival and
    destination of its last leg and its transfers; a journey without legs
    contributes no line, and taking it out of the sequence (leaving some
    journey) does not change the table. *)
Theorem JourneysPlain_skips_journeys_without_legs :
  (∀ data resp withHeader,
     Unmarshal_Journeys data = Ok resp →
     elems (JourneysResponse_Journeys resp) ≠ [] →
     JourneysPlain data withHeader
     = Ok (journeys_header withHeader
           +:+ str_concat
                 (journey_row
                    <$> filter (λ j, has_legs j = true)
                          (elems (JourneysResponse_Journeys resp)))))
  ∧ (∀ data data' resp resp' js1 j0 js2 withHeader,
       Unmarshal_Journeys data = Ok resp →
       Unmarshal_Journeys data' = Ok resp' →
       elems (JourneysResponse_Journeys resp) = js1 ++ j0 :: js2 →
       elems (JourneysResponse_Journeys resp') = js1 ++ js2 →
       elems (Journey_Legs j0) = [] →
       js1 ++ js2 ≠ [] →
       JourneysPlain data withHeader = JourneysPlain data' withHeader).
Proof.
  assert (∀ data resp withHeader,
     Unmarshal_Journeys data = Ok resp →
     elems (JourneysResponse_Journeys resp) ≠ [] →
     JourneysPlain data withHeader
     = Ok (journeys_header withHeader
           +:+ str_concat
                 (journey_row
                    <$> filter (λ j, has_legs j = true)
                          (elems (JourneysResponse_Journeys resp))))) as Hrows.
  { intros data resp withHeader Hdec Hne. unfold JourneysPlain.
    rewrite Hdec. cbv zeta.
    apply length_zero_cons in Hne. rewrite Hne.
    rewrite journeys_loop. by destruct withHeader. }
  split; [exact Hrows|].
  intros data data' resp resp' js1 j0 js2 withHeader Hdec Hdec' Hjs Hjs' Hlegs Hne.
  rewrite (Hrows _ _ _ Hdec), (Hrows _ _ _ Hdec').
  - rewrite Hjs, Hjs', !filter_app, filter_cons_False; [done|].
    unfold has_legs. by rewrite Hlegs.
  - by rewrite Hjs'.
  - rewrite Hjs. by destruct js1.
Qed.

Lemma JourneysPlain_skips_journeys_without_legs_witness :
  let one := "{'legs':[{'departure':'d1','arrival':'a1'}],'transfers':1}" in
  JourneysPlain (quoted ("{'journeys':[{'legs':[]}," +:+ one +:+ "]}")) true
  = Ok (journeys_header true +:+ tab_row ["d1"; "-"; "a1"; "-"; "1"])
  ∧ JourneysPlain (quoted ("{'journeys':[{'legs':[]}," +:+ one +:+ "]}")) true
    = JourneysPlain (quoted ("{'journeys':[" +:+ one +:+ "]}")) true.
Proof.
  intros one.
  pose (j0 := mkJourney nil_slice 0).
  pose (j1 := mkJourney (mkSlice [mkLeg None None "d1" "" "a1" ""] []) 1).
  destruct JourneysPlain_skips_journeys_without_legs as [Hrows Hdrop].
  split.
  - rewrite (Hrows _ (mkJourneysResponse (mkSlice [j0; j1] [])) true);
      [reflexivity | vm_compute; reflexivity | done].
  - apply (Hdrop _ _ (mkJourneysResponse (mkSlice [j0; j1] []))
             (mkJourneysResponse (mkSlice [j1] [])) [] j0 [j1] true);
      try (vm_compute; reflexivity); done.
Defined.

(* ================================================================== *)
(** * White space *)

Lemma str_drop_drop a b s : str_drop a (str_drop b s) = str_drop (b + a) s.
Proof.
  revert s. induction b as [|b IH]; intros s; [done|].
  destruct s as [|c s]; simpl; [by destruct a | apply IH].
Qed.

Lemma str_take_app_le n a b :
  (n ≤ String.length a)%nat → str_take n (a +:+ b) = str_take n a.
Proof.
  revert a. induction n as [|n IH]; intros a Hn; [by destruct a, b|].
  destruct a as [|c a]; simpl in Hn; [lia|].
  rewrite app_cons. simpl. rewrite IH; [done | lia].
Qed.

Lemma str_take_prefix n a b : ∃ k, str_take n a = str_take k (a +:+ b).
Proof.
  destruct (Nat.le_gt_cases n (String.length a)).
  - exists n. by rewrite str_take_app_le.
  - exists (String.length a). rewrite str_take_app_le, !str_take_all by lia. done.
Qed.

Lemma trimLeftFunc_go_drop fuel f s :
  ∃ n, trimLeftFunc_go fuel f s = str_drop n s.
Proof.
  revert s. induction fuel as [|k IH]; intros s; [by exists 0%nat|].
  destruct s as [|c s]; [by exists 0%nat|].
  cbn [trimLeftFunc_go].
  destruct (utf8_DecodeRuneInString (String c s)) as [r size].
  destruct (f r); [|by exists 0%nat].
  destruct (IH (str_drop size (String c s))) as [n ->].
  exists (size + n)%nat. apply str_drop_drop.
Qed.

Lemma TrimRightFunc_take s f : ∃ n, strings_TrimRightFunc s f = str_take n s.
Proof.
  unfold strings_TrimRightFunc.
  destruct (lastIndexFunc_go _ _ _ _) as [i|]; [|by exists 0%nat; destruct s].
  destruct (String.get i s) as [c|]; [|eauto].
  destruct (RuneSelf <=? b2n c); [|eauto].
  destruct (utf8_DecodeRuneInString _). eauto.
Qed.

Lemma trimSpace_stop_take r : ∃ n, trimSpace_stop r = str_take n (String.rev r).
Proof.
  induction r as [|c r (n & IH)]; [by exists 0%nat|].
  cbn [trimSpace_stop].
  destruct (RuneSelf <=? b2n c); [apply TrimRightFunc_take|].
  destruct (asciiSpace c).
  - rewrite IH, rev_cons. apply str_take_prefix.
  - exists (String.length (String.rev (String c r))). by rewrite str_take_all.
Qed.

(** What [TrimSpace] returns is a part of its argument. *)
Lemma TrimSpace_infix s :
  ∃ l r : string, s = l +:+ strings_TrimSpace s +:+ r.
Proof.
  assert (∃ i j, strings_TrimSpace s = str_take j (str_drop i s)) as (i & j & ->).
  { induction s as [|c s (i & j & IH)]; [by exists 0%nat, 0%nat|].
    cbn [strings_TrimSpace].
    destruct (RuneSelf <=? b2n c).
    - unfold strings_TrimFunc, strings_TrimLeftFunc.
      destruct (trimLeftFunc_go_drop (String.length (String c s))
                  unicode_IsSpace (String c s)) as [i' ->].
      destruct (TrimRightFunc_take (str_drop i' (String c s)) unicode_IsSpace)
        as [j' ->]. eauto.
    - destruct (asciiSpace c).
      + exists (S i), j. by rewrite IH.
      + destruct (trimSpace_stop_take (String.rev (String c s))) as [n ->].
        rewrite rev_involutive. by exists 0%nat, n. }
  exists (str_take i s), (str_drop j (str_drop i s)).
  by rewrite str_take_drop, str_take_drop.
Qed.

Lemma str_all_rev p s : str_all p (String.rev s) = str_all p s.
Proof.
  induction s as [|c s IH]; [done|].
  rewrite rev_cons, str_all_app, IH. unfold str_all. simpl.
  rewrite andb_true_r. apply andb_comm.
Qed.

Lemma trimSpace_stop_ascii r :
  is_ascii r = true → trimSpace_stop r = String.rev (drop_spaces r).
Proof.
  unfold is_ascii, str_all. induction r as [|c r IH]; [done|]. simpl.
  intros [Hc Hr]%andb_true_iff.
  apply N.ltb_lt in Hc. destruct (N.leb_spec RuneSelf (b2n c)); [lia|].
  destruct (asciiSpace c); [by apply IH | done].
Qed.

(** On ASCII text, [TrimSpace] drops the white space bytes at both ends. *)
Lemma TrimSpace_ascii s :
  is_ascii s = true → strings_TrimSpace s = trim_ascii s.
Proof.
  unfold trim_ascii. induction s as [|c s IH]; [done|].
  intros Hs. pose proof Hs as Hs'. unfold is_ascii, str_all in Hs'. simpl in Hs'.
  apply andb_true_iff in Hs' as [Hc Htl].
  cbn [strings_TrimSpace drop_spaces].
  apply N.ltb_lt in Hc. destruct (N.leb_spec RuneSelf (b2n c)); [lia|].
  destruct (asciiSpace c); [by apply IH|].
  apply trimSpace_stop_ascii. unfold is_ascii. by rewrite str_all_rev.
Qed.

(* ================================================================== *)
(** * Status classification and the error message *)

Lemma summarize_spec (msg : string) (max : nat) :
  ((String.length msg ≤ max)%nat ∧ summarize msg max = msg)
  ∨ ((max < String.length msg)%nat
     ∧ summarize msg max = str_take max msg +:+ "..."
     ∧ String.length (str_take max msg) = max).
Proof.
  unfold summarize. destruct (Nat.leb_spec (String.length msg) max).
  - by left.
  - right. split_and!; [done | done | apply str_take_length; lia].
Qed.

(** C5. The message of a transport failure is the status and a text: the
    body without its surrounding white space (a part of the body; on an
    ASCII body, the body without the white space bytes at its two ends) or,
    when that is empty, the reason phrase of the status; a text of at most
    200 bytes is shown as it is, and of a longer one the first 200 bytes
    are shown, followed by "...". *)
Theorem HTTPError_Error_spec (e : HTTPError) :
  let trimmed := strings_TrimSpace (Body e) in
  let msg :=
    if str_is_empty trimmed then http_StatusText (Status e) else trimmed in
  (∃ l r : string, Body e = l +:+ trimmed +:+ r)
  ∧ (is_ascii (Body e) = true → trimmed = trim_ascii (Body e))
  ∧ ∃ shown : string,
      HTTPError_Error e
      = "request failed: " +:+ fmt_d (Status e) +:+ " " +:+ shown
      ∧ (((String.length msg ≤ 200)%nat ∧ shown = msg)
         ∨ ((200 < String.length msg)%nat
            ∧ shown = str_take 200 msg +:+ "..."
            ∧ String.length (str_take 200 msg) = 200%nat)).
Proof.
  intros trimmed msg. split_and!.
  - apply TrimSpace_infix.
  - apply TrimSpace_ascii.
  - exists (summarize msg 200). split; [done|]. apply summarize_spec.
Qed.

Lemma HTTPError_Error_spec_witness :
  strings_TrimSpace (" gone " +:+ NL) = "gone".
Proof.
  destruct (HTTPError_Error_spec (mkHTTPError 410 (" gone " +:+ NL)))
    as (_ & H & _).
  apply H. reflexivity.
Defined.

(** C4. When the HTTP client answers the request of [Get] with a response
    whose body is read in full, a status from 200 to 299 makes [Get] return
    the body, and any other status makes it return an [HTTPError] with that
    status and that body, never the body as a success.  The status 404 with
    the body of the test has the message "request failed: 404" followed by
    that body. *)
Theorem Get_classifies_status :
  (∀ (do : Transport) (c : Client) (base : URL) (path : string)
     (params : Values) (req : Request) (resp : Response) (body : string),
     baseURL c = Some base →
     newRequest c (URL_String (resolveURL base path params)) = Ok req →
     do req = Ok resp →
     ReadAll resp = Ok body →
     ((200 <= StatusCode resp <= 299)%Z →
        Get do (Some c) path params = Ok body)
     ∧ (¬ (200 <= StatusCode resp < 300)%Z →
        Get do (Some c) path params
        = Err (errHTTP (mkHTTPError (StatusCode resp) body))))
  ∧ HTTPError_Error (mkHTTPError 404 (quoted "{'error':'not found'}"))
    = "request failed: 404 " +:+ quoted "{'error':'not found'}".
Proof.
  split; [|vm_compute; reflexivity].
  intros do c base path params req resp body Hbase Hreq Hdo Hread.
  unfold Get, buildURL. rewrite Hbase, Hreq, Hdo, Hread.
  unfold http_StatusOK, http_StatusMultipleChoices.
  split; intros Hst.
  - destruct (Z.ltb_spec (StatusCode resp) 200); [lia|].
    destruct (Z.leb_spec 300 (StatusCode resp)); [lia|]. done.
  - destruct (Z.ltb_spec (StatusCode resp) 200); [done|].
    destruct (Z.leb_spec 300 (StatusCode resp)); [done|]. lia.
Qed.

Lemma Get_classifies_status_witness :
  let body := quoted "{'error':'not found'}" in
  let base := mkURL "http" "" None "127.0.0.1:8080" "" "" false false "" "" "" in
  let c := mkClient (Some base) (mk_http_Client (10 * time_Second)) "" in
  Get (λ _, Ok (mkResponse 404 (Ok body))) (Some c) "/missing" ∅
  = Err (errHTTP (mkHTTPError 404 body))
  ∧ Get (λ _, Ok (mkResponse 200 (Ok body))) (Some c) "/missing" ∅ = Ok body.
Proof.
  intros body base c.
  pose (req := mkRequest "GET" "http://127.0.0.1:8080/missing"
                 [("Accept", "application/json")]).
  destruct Get_classifies_status as [H _].
  split.
  - destruct (H (λ _, Ok (mkResponse 404 (Ok body))) c base "/missing" ∅ req
                (mkResponse 404 (Ok body)) body) as [_ Herr];
      [reflexivity | vm_compute; reflexivity | reflexivity | reflexivity |].
    apply Herr. simpl. lia.
  - destruct (H (λ _, Ok (mkResponse 200 (Ok body))) c base "/missing" ∅ req
                (mkResponse 200 (Ok body)) body) as [Hok _];
      [reflexivity | vm_compute; reflexivity | reflexivity | reflexivity |].
    apply Hok. simpl. lia.
Defined.

(* ================================================================== *)
(** * The path merge *)

Lemma HasPrefix_cons c d s :
  strings_HasPrefix (String c s) (String d "") = byte_eqb c d.
Proof. simpl. by rewrite andb_true_r. Qed.

(** [TrimLeft] with the cutset "/" removes the leading slashes and
    nothing else. *)
Lemma TrimLeft_slash (s : string) :
  ∃ n : nat,
    s = str_repeat "/" n +:+ strings_TrimLeft s "/"
    ∧ strings_HasPrefix (strings_TrimLeft s "/") "/" = false.
Proof.
  induction s as [|c s (n & Hn & Hpre)].
  - by exists 0%nat.
  - simpl. unfold str_any. simpl. rewrite orb_false_r.
    destruct (byte_eqb c "/") eqn:Hc.
    + apply byte_eqb_eq in Hc as ->.
      exists (S n). simpl. rewrite app_cons. by rewrite <- Hn.
    + exists 0%nat. split; [done|]. simpl. by rewrite Hc.
Qed.

(** [TrimRight] with the cutset "/" removes the trailing slashes and
    nothing else. *)
Lemma TrimRight_slash (s : string) :
  ∃ n : nat,
    s = strings_TrimRight s "/" +:+ str_repeat "/" n
    ∧ strings_HasSuffix (strings_TrimRight s "/") "/" = false.
Proof.
  destruct (TrimLeft_slash (String.rev s)) as (n & Hn & Hpre).
  exists n. unfold strings_TrimRight, strings_HasSuffix.
  rewrite rev_involutive. split; [|done].
  rewrite <- (rev_involutive s) at 1.
  rewrite Hn at 1. by rewrite rev_app, rev_repeat.
Qed.

Lemma escape_cons c s mode :
  escape (String c s) mode = esc1 c mode +:+ escape s mode.
Proof.
  unfold esc1. cbn [escape].
  destruct (_ && _); [done|]. by destruct (shouldEscape c mode).
Qed.

Lemma unescape_esc1_path c rest :
  unescape (esc1 c encodePath +:+ rest) encodePath
  = (t ← unescape rest encodePath; Ok (String c t)).
Proof. destruct c as [[] [] [] [] [] [] [] []]; reflexivity. Qed.

(** Unescaping undoes escaping, for a path. *)
Lemma unescape_escape_path s : unescape (escape s encodePath) encodePath = Ok s.
Proof.
  induction s as [|c s IH]; [done|].
  by rewrite escape_cons, unescape_esc1_path, IH.
Qed.

(** The path written by [URL.String] decodes to [Path]. *)
Lemma unescape_EscapedPath (u : URL) :
  unescape (URL_EscapedPath u) encodePath = Ok (Path u).
Proof.
  unfold URL_EscapedPath.
  destruct (negb (str_is_empty (RawPath u)) && validEncoded (RawPath u) encodePath) eqn:E1; simpl.
  - destruct (unescape (RawPath u) encodePath) as [p|] eqn:Hraw.
    + destruct (String.eqb_spec p (Path u)) as [->|_]; [done|].
      destruct (String.eqb_spec (Path u) "*") as [->|_]; [done|].
      apply unescape_escape_path.
    + destruct (String.eqb_spec (Path u) "*") as [->|_]; [done|].
      apply unescape_escape_path.
  - destruct (String.eqb_spec (Path u) "*") as [->|_]; [done|].
    apply unescape_escape_path.
Qed.

(** For a URL without an opaque part, [URL.String] writes the escaped
    path behind the scheme and the authority. *)
Lemma URL_String_head_path (u : URL) :
  Opaque u = "" →
  ∃ prefix : string, URL_String_head u = prefix +:+ URL_EscapedPath u.
Proof.
  intros Hop. unfold URL_String_head. rewrite Hop. cbn [str_is_empty negb].
  eexists. reflexivity.
Qed.


(** The path of the URL that [buildURL] renders is the path of the base
    without its trailing slashes, one slash, and the resource path without
    its leading slashes; for a base with an empty path it is a slash and
    the cleaned resource path.  When the base has no opaque part, the
    target is a prefix (scheme and authority), the escaped form of this
    path, the query and the fragment. *)
Lemma buildURL_merges_paths (base : URL) (path : string) (params : Values) :
  ∃ (basePath cleanPath : string) (n m : nat),
    Path base = basePath +:+ str_repeat "/" n
    ∧ strings_HasSuffix basePath "/" = false
    ∧ path = str_repeat "/" m +:+ cleanPath
    ∧ strings_HasPrefix cleanPath "/" = false
    ∧ buildURL (Some base) path params
      = Ok (URL_String (resolveURL base path params))
    ∧ Path (resolveURL base path params) = basePath +:+ "/" +:+ cleanPath
    ∧ (Path base = "" →
       Path (resolveURL base path params) = "/" +:+ cleanPath)
    ∧ (Opaque base = "" →
       ∃ prefix escaped : string,
         buildURL (Some base) path params
         = Ok (prefix +:+ escaped
               +:+ URL_String_query (resolveURL base path params)
               +:+ URL_String_fragment (resolveURL base path params))
         ∧ unescape escaped encodePath = Ok (basePath +:+ "/" +:+ cleanPath)).
Proof.
  destruct (TrimRight_slash (Path base)) as (n & Hn & Hsuf).
  destruct (TrimLeft_slash path) as (m & Hm & Hpre).
  exists (strings_TrimRight (Path base) "/"), (strings_TrimLeft path "/"), n, m.
  assert (Path (resolveURL base path params)
          = strings_TrimRight (Path base) "/" +:+ "/" +:+ strings_TrimLeft path "/")
    as Hmerged.
  { simpl. by destruct (strings_TrimRight (Path base) "/"). }
  split_and!; try done.
  - intros Hempty. simpl. by rewrite Hempty.
  - intros Hopaque.
    destruct (URL_String_head_path (resolveURL base path params) Hopaque)
      as [prefix Hhead].
    exists prefix, (URL_EscapedPath (resolveURL base path params)).
    split.
    + unfold buildURL, URL_String. by rewrite Hhead, !app_assoc.
    + by rewrite unescape_EscapedPath, Hmerged.
Qed.

Lemma buildURL_merges_paths_witness :
  let base := mkURL "http" "" None "h" "" "" false false "" "" "" in
  (∃ cleanPath : string,
     Path (resolveURL base "//locations" ∅) = "/" +:+ cleanPath)
  ∧ (∃ prefix escaped : string,
       buildURL (Some base) "//locations" ∅
       = Ok (prefix +:+ escaped
             +:+ URL_String_query (resolveURL base "//locations" ∅)
             +:+ URL_String_fragment (resolveURL base "//locations" ∅))).
Proof.
  intros base.
  destruct (buildURL_merges_paths base "//locations" ∅)
    as (bp & clean & n & m & _ & _ & _ & _ & _ & _ & Hempty & Hstr).
  split.
  - exists clean. apply Hempty. reflexivity.
  - destruct Hstr as (prefix & escaped & Hbuild & _); [reflexivity|].
    by exists prefix, escaped.
Defined.

(** For a base with an opaque part, [URL.String] writes the scheme and the
    opaque part and never reads [Path]: the resource path has no effect on
    the target. *)
Lemma buildURL_opaque_base (base : URL) (path : string) (params : Values) :
  Opaque base ≠ "" →
  buildURL (Some base) path params
  = Ok ((if str_is_empty (Scheme base) then "" else Scheme base +:+ ":")
        +:+ Opaque base
        +:+ URL_String_query (resolveURL base path params)
        +:+ URL_String_fragment base)
  ∧ URL_String_query (resolveURL base path params)
    = URL_String_query (resolveURL base "" params).
Proof.
  intros Hopaque. split; [|done].
  unfold buildURL, URL_String, URL_String_head.
  cbn [Opaque Scheme resolveURL].
  apply str_is_empty_false in Hopaque. rewrite Hopaque. cbn [negb].
  by rewrite !app_assoc.
Qed.

Lemma TrimRight_rooted (s : string) :
  s = "" ∨ strings_HasPrefix s "/" = true →
  strings_TrimRight s "/" = ""
  ∨ strings_HasPrefix (strings_TrimRight s "/") "/" = true.
Proof.
  intros Hs. destruct (TrimRight_slash s) as (n & Hn & _).
  destruct (strings_TrimRight s "/") as [|c t]; [by left|right].
  destruct Hs as [->|Hs]; [done|].
  rewrite Hn in Hs. by rewrite app_cons in Hs.
Qed.

Lemma escape_rooted (s : string) :
  strings_HasPrefix s "/" = true →
  strings_HasPrefix (escape s encodePath) "/" = true
  ∧ String.eqb s "*" = false.
Proof.
  destruct s as [|c s]; [done|].
  rewrite HasPrefix_cons. intros Hc. apply byte_eqb_eq in Hc as ->.
  by rewrite escape_cons.
Qed.

(** The target for a base with a scheme and a host, without user
    information, whose path is empty or begins with a slash and is its own
    encoding: the scheme, the host, the escaped merged path, the query and
    the fragment. *)
Lemma buildURL_rooted_base (base : URL) (path : string) (params : Values) :
  Opaque base = "" → Scheme base ≠ "" → Host base ≠ "" → User base = None →
  RawPath base = "" →
  Path base = "" ∨ strings_HasPrefix (Path base) "/" = true →
  let merged :=
    strings_TrimRight (Path base) "/" +:+ "/" +:+ strings_TrimLeft path "/" in
  buildURL (Some base) path params
  = Ok (Scheme base +:+ "://" +:+ escape (Host base) encodeHost
        +:+ escape merged encodePath
        +:+ URL_String_query (resolveURL base path params)
        +:+ URL_String_fragment base)
  ∧ unescape (escape merged encodePath) encodePath = Ok merged
  ∧ strings_HasPrefix (escape merged encodePath) "/" = true.
Proof.
  intros Hopaque Hscheme Hhost Huser Hraw Hpath merged.
  assert (Path (resolveURL base path params) = merged) as Hmerged.
  { simpl. by destruct (strings_TrimRight (Path base) "/"). }
  assert (strings_HasPrefix merged "/" = true) as Hrooted.
  { subst merged. destruct (TrimRight_rooted _ Hpath) as [->|H]; [done|].
    destruct (strings_TrimRight (Path base) "/"); [done|].
    by rewrite app_cons. }
  destruct (escape_rooted merged Hrooted) as [Hesc Hstar].
  split_and!; [|apply unescape_escape_path|done].
  assert (URL_EscapedPath (resolveURL base path params)
          = escape merged encodePath) as Hescaped.
  { unfold URL_EscapedPath. rewrite Hmerged. cbn [RawPath resolveURL].
    rewrite Hraw. cbn. by rewrite Hstar. }
  unfold buildURL, URL_String, URL_String_head.
  rewrite Hescaped, Hesc.
  cbn [Opaque Scheme Host User OmitHost resolveURL].
  apply str_is_empty_false in Hscheme, Hhost.
  rewrite Hopaque, Huser, Hscheme, Hhost.
  cbn [str_is_empty negb orb andb].
  assert (str_is_empty (escape merged encodePath) = false) as ->.
  { by destruct (escape merged encodePath). }
  cbn [negb andb].
  rewrite andb_false_r. cbn [andb].
  destruct (str_is_empty _ && _) eqn:E.
  - apply andb_true_iff in E as [E _]. rewrite app_assoc in E.
    by destruct (Scheme base).
  - by rewrite !app_assoc.
Qed.

Lemma buildURL_rooted_base_witness :
  let base := mkURL "http" "" None "h" "/api//" "" false false "" "" "" in
  buildURL (Some base) "//stops/1|2" ∅ = Ok "http://h/api/stops/1%7C2".
Proof.
  intros base.
  destruct (buildURL_rooted_base base "//stops/1|2" ∅) as [-> _];
    [reflexivity | done | done | reflexivity | reflexivity
    | by right | vm_compute; reflexivity].
Defined.

(** C2. A base that is a scheme and a rest without a leading slash parses
    with an opaque part, and [NewClient] accepts it.  [buildURL] puts the
    merged path into [Path], which [URL.String] does not write for such a
    base: the target is the base itself, with the query, for every resource
    path, and the resource path is lost. *)
Theorem buildURL_drops_path_of_opaque_base :
  ∃ c c' : Client,
    NewClient (mkConfig "localhost:8080" 0 "") = Ok c
    ∧ Client_URL c "/locations" (<["query" := ["berlin"]]> ∅)
      = Ok "localhost:8080?query=berlin"
    ∧ (∀ path : string, Client_URL c path ∅ = Ok "localhost:8080")
    ∧ NewClient (mkConfig "http:api" 0 "") = Ok c'
    ∧ (∀ path : string, Client_URL c' path ∅ = Ok "http:api").
Proof.
  exists (mkClient
            (Some (mkURL "localhost" "8080" None "" "" "" false false "" "" ""))
            (mk_http_Client (10 * time_Second)) ""),
         (mkClient
            (Some (mkURL "http" "api" None "" "" "" false false "" "" ""))
            (mk_http_Client (10 * time_Second)) "").
  split_and!; intros; vm_compute; reflexivity.
Qed.

(* ================================================================== *)
(** * Client construction *)

Lemma letter_ascii c : is_letter c = true → (b2n c <? RuneSelf) = true.
Proof.
  unfold is_letter, between, RuneSelf. intros H.
  apply N.ltb_lt. change (b2n "a") with 97 in H. change (b2n "z") with 122 in H.
  change (b2n "A") with 65 in H. change (b2n "Z") with 90 in H.
  repeat (apply orb_true_iff in H as [H|H] || apply andb_true_iff in H as [? H]);
    repeat match goal with H : (_ <=? _) = true |- _ => apply N.leb_le in H end;
    lia.
Qed.

Lemma letter_not_space c : is_letter c = true → asciiSpace c = false.
Proof.
  unfold is_letter, between, asciiSpace. intros H.
  change (b2n "a") with 97 in H. change (b2n "z") with 122 in H.
  change (b2n "A") with 65 in H. change (b2n "Z") with 90 in H.
  assert (65 <= b2n c) as Hge.
  { repeat (apply orb_true_iff in H as [H|H] || apply andb_true_iff in H as [? H]);
      repeat match goal with H : (_ <=? _) = true |- _ => apply N.leb_le in H end;
      lia. }
  repeat (apply orb_false_iff; split); apply N.eqb_neq; lia.
Qed.

Lemma letter_not_IsSpace c : is_letter c = true → unicode_IsSpace (b2n c) = false.
Proof.
  intros H. pose proof (letter_ascii c H) as Hlt.
  pose proof (letter_not_space c H) as Hsp.
  apply N.ltb_lt in Hlt. unfold RuneSelf in Hlt.
  unfold unicode_IsSpace. destruct (N.leb_spec (b2n c) 255); [|lia].
  unfold asciiSpace in Hsp. cbv zeta in Hsp.
  rewrite !orb_false_iff in Hsp. destruct Hsp as (((((?&?)&?)&?)&?)&?).
  repeat (apply orb_false_iff; split); try done; apply N.eqb_neq; lia.
Qed.

(** Decoding at a byte of ASCII yields that byte. *)
Lemma DecodeRune_ascii c s :
  (b2n c <? RuneSelf) = true →
  utf8_DecodeRuneInString (String c s) = (b2n c, 1%nat).
Proof. intros H. unfold utf8_DecodeRuneInString. by rewrite H. Qed.

Lemma scan_back_le s lim start steps :
  (utf8_scan_back s lim start steps <= start)%Z.
Proof.
  revert start. induction steps as [|k IH]; intros start; simpl; [lia|].
  destruct (start <? lim)%Z; [lia|].
  destruct (String.get _ s); [|lia].
  destruct (utf8_RuneStart _); [lia|]. specialize (IH (start - 1)%Z). lia.
Qed.

Lemma str_slice_0 n s : n = String.length s → str_slice 0 n s = s.
Proof.
  intros ->. unfold str_slice. rewrite Nat.sub_0_r. simpl.
  by apply str_take_all.
Qed.

Lemma get_last_singleton c d :
  String.get 0 (String c "") = Some d → d = c.
Proof. simpl. congruence. Qed.

(** The last rune of a text that starts with a letter: when it is a
    space, it is not the whole text. *)
Lemma DecodeLastRune_letter c t r size :
  is_letter c = true →
  utf8_DecodeLastRuneInString (String c t) = (r, size) →
  unicode_IsSpace r = true →
  (1 ≤ size < String.length (String c t))%nat.
Proof.
  intros Hc Hdec Hsp.
  pose proof (letter_not_IsSpace c Hc) as Hcsp.
  pose proof (letter_ascii c Hc) as Hasc.
  unfold utf8_DecodeLastRuneInString in Hdec.
  remember (String c t) as s eqn:Hs.
  assert (String.length s = S (String.length t)) as Hlen by (subst; done).
  rewrite Hlen in Hdec.
  destruct (String.get (String.length t) s) as [cl|] eqn:Hget; [|simplify_eq/=; done].
  destruct (b2n cl <? RuneSelf) eqn:Hcl.
  - simplify_eq. split; [done|]. simpl.
    destruct t as [|c' t']; [|simpl; lia].
    simpl in Hget. simplify_eq. congruence.
  - set (start := Z.to_nat (Z.max 0 _)) in Hdec.
    destruct (utf8_DecodeRuneInString _) as [r' size'] eqn:Hrune.
    destruct (Nat.eqb_spec (start + size') (S (String.length t))) as [Heq|Hne];
      simpl in Hdec; simplify_eq.
    assert (start ≤ String.length t)%nat as Hstart.
    { subst start.
      match goal with |- context [utf8_scan_back ?a ?b ?c ?d] =>
        pose proof (scan_back_le a b c d) end. lia. }
    split; [lia|]. simpl.
    destruct (decide (start = 0%nat)) as [H0|]; [|lia].
    rewrite H0 in Hrune. rewrite str_slice_0 in Hrune by done.
    rewrite DecodeRune_ascii in Hrune by done. simplify_eq. congruence.
Qed.

(** Walking back from any position of a text that starts with a letter,
    [lastIndexFunc] finds a rune that is not a space. *)
Lemma lastIndexFunc_letter c t fuel i :
  is_letter c = true →
  (1 ≤ i ≤ fuel)%nat → (i ≤ String.length (String c t))%nat →
  is_Some (lastIndexFunc_go fuel unicode_IsSpace (String c t) i).
Proof.
  intros Hc. revert i. induction fuel as [|k IH]; intros i Hi Hlen; [lia|].
  destruct i as [|i']; [lia|].
  cbn [lastIndexFunc_go].
  destruct (utf8_DecodeLastRuneInString _) as [r size] eqn:Hdec.
  destruct (unicode_IsSpace r) eqn:Hsp; simpl; [|done].
  assert (str_take (S i') (String c t) = String c (str_take i' t)) as Htake by done.
  rewrite Htake in Hdec.
  pose proof (DecodeLastRune_letter _ _ _ _ Hc Hdec Hsp) as [Hs1 Hs2].
  simpl in Hs2.
  assert (String.length (str_take i' t) ≤ i')%nat.
  { clear. revert t. induction i' as [|n IHn]; intros [|c t]; simpl; try lia.
    specialize (IHn t). lia. }
  apply IH; lia.
Qed.

Lemma str_take_nonempty n c t : (1 ≤ n)%nat → str_take n (String c t) ≠ "".
Proof. destruct n; [lia | done]. Qed.

Lemma TrimRightFunc_letter c t :
  is_letter c = true →
  strings_TrimRightFunc (String c t) unicode_IsSpace ≠ "".
Proof.
  intros Hc. unfold strings_TrimRightFunc.
  destruct (lastIndexFunc_letter c t (String.length (String c t))
              (String.length (String c t)) Hc) as [i Hi]; [simpl; lia | done |].
  rewrite Hi.
  destruct (String.get i (String c t)) as [ci|] eqn:Hget.
  - destruct (RuneSelf <=? b2n ci) eqn:Hci.
    + destruct (utf8_DecodeRuneInString _) as [r wid].
      apply str_take_nonempty.
      destruct i as [|i]; [|lia].
      simpl in Hget. simplify_eq.
      pose proof (letter_ascii _ Hc) as Hlt.
      apply N.ltb_lt in Hlt. apply N.leb_le in Hci. lia.
    + apply str_take_nonempty. lia.
  - apply str_take_nonempty. lia.
Qed.

Lemma rev_nonempty c s : String.rev (String c s) ≠ "".
Proof.
  intros H. apply (f_equal String.length) in H.
  rewrite rev_length in H. done.
Qed.

Lemma trimSpace_stop_letter c r0 :
  is_letter c = true →
  trimSpace_stop (r0 +:+ String c "") ≠ "".
Proof.
  intros Hc. induction r0 as [|x r0 IH].
  - simpl. rewrite letter_not_space by done.
    pose proof (letter_ascii _ Hc) as Hlt. unfold RuneSelf in *.
    apply N.ltb_lt in Hlt.
    destruct (N.leb_spec 128 (b2n c)); [lia|]. done.
  - rewrite app_cons. cbn [trimSpace_stop].
    destruct (RuneSelf <=? b2n x).
    + rewrite rev_cons, rev_app.
      change (String.rev (String c "")) with (String c "").
      rewrite !app_cons. by apply TrimRightFunc_letter.
    + destruct (asciiSpace x); [done|]. apply rev_nonempty.
Qed.

(** A text that starts with a letter is not blank. *)
Lemma TrimSpace_letter c t :
  is_letter c = true → strings_TrimSpace (String c t) ≠ "".
Proof.
  intros Hc. cbn [strings_TrimSpace].
  pose proof (letter_ascii _ Hc) as Hlt. unfold RuneSelf in *.
  apply N.ltb_lt in Hlt.
  destruct (N.leb_spec 128 (b2n c)); [lia|].
  rewrite letter_not_space by done.
  rewrite rev_cons. by apply trimSpace_stop_letter.
Qed.
Lemma ToLower_empty s : strings_ToLower s = "" → s = "".
Proof. by destruct s. Qed.

(** A scheme starts with a letter. *)
Lemma getScheme_letter rawURL scheme rest :
  getScheme rawURL = Ok (scheme, rest) →
  scheme ≠ "" →
  ∃ c s', rawURL = String c s' ∧ is_letter c = true.
Proof.
  unfold getScheme. intros H Hne.
  destruct (getScheme_go 0 rawURL rawURL) as [[sch rst]|] eqn:Hgo; [|done].
  simplify_eq. destruct rawURL as [|c s]; simpl in Hgo; [by simplify_eq|].
  destruct (between "a" "z" c || between "A" "Z" c) eqn:Hl.
  - by exists c, s.
  - destruct (between "0" "9" c || byte_in c "+-."); [by simplify_eq|].
    destruct (byte_eqb c ":"); by simplify_eq.
Qed.

Lemma url_parse_abs rawURL url :
  url_parse rawURL = Ok url →
  URL_IsAbs url = true →
  ∃ c s', rawURL = String c s' ∧ is_letter c = true.
Proof.
  unfold url_parse, URL_IsAbs. intros H Habs.
  destruct (stringContainsCTLByte rawURL); [done|].
  destruct (String.eqb rawURL "*"); [by simplify_eq|].
  destruct (getScheme rawURL) as [[scheme rest]|] eqn:Hsch; [|done].
  apply (getScheme_letter _ _ _ Hsch).
  intros ->. simpl in H.
  repeat case_match; simplify_eq/=; try done.
  all: try match type of H with context [parseAuthority ?a] =>
         destruct (parseAuthority a) as [[? ?]|]; simpl in H; [|done] end.
  all: try match type of H with context [setPath ?r] =>
         destruct (setPath r) as [[? ?]|]; simpl in H; [|done] end.
  all: by simplify_eq.
Qed.

Lemma Cut_first s sep c b a f :
  strings_Cut s sep = (String c b, a, f) → ∃ s', s = String c s'.
Proof.
  unfold strings_Cut. destruct (strings_Index s sep) as [i|]; intros H; simplify_eq.
  - destruct i, s; simplify_eq/=. eauto.
  - eauto.
Qed.

(** A base that parses as an absolute URI starts with a letter. *)
Lemma url_Parse_abs rawURL url :
  url_Parse rawURL = Ok url →
  URL_IsAbs url = true →
  ∃ c s', rawURL = String c s' ∧ is_letter c = true.
Proof.
  unfold url_Parse. intros H Habs.
  destruct (strings_Cut rawURL "#") as [[u frag] found] eqn:Hcut.
  destruct (url_parse u) as [url0|] eqn:Hparse; [|done].
  assert (URL_IsAbs url0 = true) as Habs0.
  { destruct (str_is_empty frag); [by simplify_eq|].
    destruct (setFragment frag) as [[f rf]|]; by simplify_eq. }
  destruct (url_parse_abs _ _ Hparse Habs0) as (c & s' & -> & Hc).
  destruct (Cut_first _ _ _ _ _ _ Hcut) as [s'' ->]. eauto.
Qed.

Lemma is_Ok_false {A} (r : result A) : is_Ok r = false ↔ ∃ e, r = Err e.
Proof. destruct r; simpl; split; try done; [by intros [? ?] | eauto]. Qed.

(** C6, as the code has it.  Client construction fails exactly when the
    base is blank or does not parse as a URI reference, and otherwise gives
    a client on the parsed base (with the default timeout when the
    configured one is not positive).  A base that parses as an absolute URI
    is never blank, so it is always accepted; a base that parses as a
    relative reference is accepted as well, unless it is blank: a single
    space parses as a relative reference and is refused. *)
Theorem NewClient_spec (cfg : Config) :
  (is_Ok (NewClient cfg) = false
   ↔ strings_TrimSpace (BaseURL cfg) = "" ∨ is_Ok (url_Parse (BaseURL cfg)) = false)
  ∧ (∀ base, strings_TrimSpace (BaseURL cfg) ≠ "" →
       url_Parse (BaseURL cfg) = Ok base →
       NewClient cfg
       = Ok (mkClient (Some base)
               (mk_http_Client
                  (if (Timeout cfg <=? 0)%Z then (10 * time_Second)%Z
                   else Timeout cfg))
               (UserAgent cfg)))
  ∧ (∀ base, url_Parse (BaseURL cfg) = Ok base → URL_IsAbs base = true →
       ∃ c, NewClient cfg = Ok c ∧ baseURL c = Some base)
  ∧ (∃ base, url_Parse " " = Ok base ∧ URL_IsAbs base = false
             ∧ NewClient (mkConfig " " (Timeout cfg) (UserAgent cfg))
               = Err (errorString "base URL is required")).
Proof.
  assert (∀ base, strings_TrimSpace (BaseURL cfg) ≠ "" →
       url_Parse (BaseURL cfg) = Ok base →
       NewClient cfg
       = Ok (mkClient (Some base)
               (mk_http_Client
                  (if (Timeout cfg <=? 0)%Z then (10 * time_Second)%Z
                   else Timeout cfg))
               (UserAgent cfg))) as Hok.
  { intros base Hblank Hparse. unfold NewClient.
    apply str_is_empty_false in Hblank. by rewrite Hblank, Hparse. }
  split_and!; [|done| |].
  - unfold NewClient.
    destruct (str_is_empty (strings_TrimSpace (BaseURL cfg))) eqn:Hblank.
    { apply str_is_empty_true in Hblank. simpl. tauto. }
    apply str_is_empty_false in Hblank.
    destruct (url_Parse (BaseURL cfg)); simpl; split; try done; tauto.
  - intros base Hparse Habs.
    destruct (url_Parse_abs _ _ Hparse Habs) as (c & s' & Hs & Hc).
    eexists. split; [apply Hok; [|done]|done].
    rewrite Hs. by apply TrimSpace_letter.
  - exists (mkURL "" "" None "" " " " " false false "" "" "").
    split_and!; [vm_compute; reflexivity | reflexivity | reflexivity].
Qed.

Lemma NewClient_spec_witness :
  ∃ c, NewClient (mkConfig "https://v6.db.transport.rest" 0 "dbrest") = Ok c
       ∧ baseURL c
         = Some (mkURL "https" "" None "v6.db.transport.rest" "" "" false false
                   "" "" "").
Proof.
  destruct (NewClient_spec (mkConfig "https://v6.db.transport.rest" 0 "dbrest"))
    as (_ & _ & H & _).
  apply H; vm_compute; reflexivity.
Defined.

(** C6, counterexample: "/api" parses, as a relative reference and not as
    an absolute URI, and the client is constructed all the same. *)
Lemma NewClient_accepts_relative_reference :
  (∃ base, url_Parse "/api" = Ok base ∧ URL_IsAbs base = false)
  ∧ is_Ok (NewClient (mkConfig "/api" 0 "")) = true.
Proof.
  split; [|vm_compute; reflexivity].
  exists (mkURL "" "" None "" "/api" "" false false "" "" "").
  split; [vm_compute; reflexivity | reflexivity].
Qed.

(* ================================================================== *)
(** * The query string *)

Lemma unescape_esc1_query c rest :
  unescape (esc1 c encodeQueryComponent +:+ rest) encodeQueryComponent
  = (t ← unescape rest encodeQueryComponent; Ok (String c t)).
Proof. destruct c as [[] [] [] [] [] [] [] []]; reflexivity. Qed.

(** Unescaping undoes escaping, for a query component. *)
Lemma QueryUnescape_QueryEscape s :
  url_QueryUnescape (url_QueryEscape s) = Ok s.
Proof.
  unfold url_QueryUnescape, url_QueryEscape.
  induction s as [|c s IH]; [done|].
  by rewrite escape_cons, unescape_esc1_query, IH.
Qed.

Lemma esc1_plain c : str_all plain_byte (esc1 c encodeQueryComponent) = true.
Proof. destruct c as [[] [] [] [] [] [] [] []]; reflexivity. Qed.

(** An escaped query component holds no ampersand, equals sign or
    semicolon. *)
Lemma QueryEscape_plain s : str_all plain_byte (url_QueryEscape s) = true.
Proof.
  unfold url_QueryEscape. induction s as [|c s IH]; [done|].
  by rewrite escape_cons, str_all_app, esc1_plain, IH.
Qed.

(** The first separator after a run of bytes that are not the separator. *)
Lemma Index_sep a sep b :
  str_all (λ c, negb (byte_eqb c sep)) a = true →
  strings_Index (a +:+ String sep b) (String sep "") = Some (String.length a).
Proof.
  induction a as [|c a IH]; intros Ha.
  - rewrite app_nil_l. cbn. by rewrite byte_eqb_refl.
  - rewrite app_cons. unfold str_all in Ha. simpl in Ha.
    apply andb_true_iff in Ha as [Hc Ha]. apply negb_true_iff in Hc.
    cbn [strings_Index strings_HasPrefix]. rewrite Hc. simpl.
    rewrite IH by done. done.
Qed.

Lemma Index_none a sep :
  str_all (λ c, negb (byte_eqb c sep)) a = true →
  strings_Index a (String sep "") = None.
Proof.
  induction a as [|c a IH]; intros Ha; [done|].
  unfold str_all in Ha. simpl in Ha. apply andb_true_iff in Ha as [Hc Ha].
  apply negb_true_iff in Hc.
  cbn [strings_Index strings_HasPrefix]. rewrite Hc. simpl. by rewrite IH.
Qed.

Lemma str_take_app a b : str_take (String.length a) (a +:+ b) = a.
Proof.
  induction a as [|c a IH]; [by destruct b|].
  rewrite app_cons. simpl. by rewrite IH.
Qed.

Lemma str_drop_app a b : str_drop (String.length a) (a +:+ b) = b.
Proof.
  induction a as [|c a IH]; [by destruct b|].
  rewrite app_cons. simpl. by rewrite IH.
Qed.

Lemma Cut_sep a sep b :
  str_all (λ c, negb (byte_eqb c sep)) a = true →
  strings_Cut (a +:+ String sep b) (String sep "") = (a, b, true).
Proof.
  intros Ha. unfold strings_Cut. rewrite Index_sep by done.
  rewrite str_take_app.
  replace (a +:+ String sep b) with ((a +:+ String sep "") +:+ b)
    by by rewrite app_assoc.
  replace (String.length a + String.length (String sep ""))%nat
    with (String.length (a +:+ String sep "")) by by rewrite app_length.
  by rewrite str_drop_app.
Qed.

Lemma Cut_none a sep :
  str_all (λ c, negb (byte_eqb c sep)) a = true →
  strings_Cut a (String sep "") = (a, "", false).
Proof. intros Ha. unfold strings_Cut. by rewrite Index_none. Qed.

Lemma str_all_impl (p q : ascii → bool) s :
  (∀ c, p c = true → q c = true) → str_all p s = true → str_all q s = true.
Proof.
  intros Hpq. unfold str_all.
  induction (list_ascii_of_string s) as [|c l IH]; [done|]. simpl.
  intros [Hc Hl]%andb_true_iff. rewrite (Hpq _ Hc). by apply IH.
Qed.

Lemma plain_not_sep sep s :
  byte_in sep "&=;" = true →
  str_all plain_byte s = true →
  str_all (λ c, negb (byte_eqb c sep)) s = true.
Proof.
  intros Hsep. apply str_all_impl. intros c Hc.
  apply negb_true_iff. destruct (byte_eqb c sep) eqn:E; [|done].
  apply byte_eqb_eq in E as ->. unfold plain_byte in Hc. by rewrite Hsep in Hc.
Qed.

Lemma QueryEscape_no sep s :
  byte_in sep "&=;" = true →
  str_all (λ c, negb (byte_eqb c sep)) (url_QueryEscape s) = true.
Proof. intros Hsep. apply plain_not_sep; [done | apply QueryEscape_plain]. Qed.

Lemma enc_pair_no sep p :
  byte_in sep "&;" = true →
  str_all (λ c, negb (byte_eqb c sep)) (enc_pair p) = true.
Proof.
  intros Hsep. unfold enc_pair.
  assert (byte_in sep "&=;" = true) as Hsep'.
  { unfold byte_in, str_any in *. simpl in *.
    destruct (byte_eqb sep "&"); [done|]. simpl in *.
    destruct (byte_eqb sep ";"); [|done]. by rewrite orb_true_r. }
  rewrite !str_all_app, !QueryEscape_no by done.
  rewrite andb_true_r, andb_true_l. unfold str_all. simpl.
  rewrite andb_true_r. apply negb_true_iff.
  destruct (byte_eqb "=" sep) eqn:E; [|done].
  apply byte_eqb_eq in E as <-. done.
Qed.

Lemma Contains_none a sep :
  str_all (λ c, negb (byte_eqb c sep)) a = true →
  strings_Contains a (String sep "") = false.
Proof.
  intros Ha. unfold strings_Contains. rewrite Index_none by done.
  apply bool_decide_eq_false. by intros [? ?].
Qed.

Lemma enc_pair_nonempty p : str_is_empty (enc_pair p) = false.
Proof.
  unfold enc_pair. destruct (url_QueryEscape p.1); done.
Qed.

Lemma Cut_enc_pair p :
  strings_Cut (enc_pair p) "=" = (url_QueryEscape p.1, url_QueryEscape p.2, true).
Proof. unfold enc_pair. apply Cut_sep. by apply QueryEscape_no. Qed.

(** One step of [parseQuery] on a pair followed by the rest of the
    query. *)
Lemma parseQuery_step fuel m err p sep_rest rest found :
  strings_Cut (enc_pair p +:+ sep_rest) "&" = (enc_pair p, rest, found) →
  parseQuery (S fuel) m err (enc_pair p +:+ sep_rest)
  = parseQuery fuel (add_value m p) err rest.
Proof.
  intros Hcut. cbn [parseQuery].
  assert (str_is_empty (enc_pair p +:+ sep_rest) = false) as ->.
  { pose proof (enc_pair_nonempty p). by destruct (enc_pair p). }
  rewrite Hcut.
  rewrite Contains_none by (by apply enc_pair_no).
  rewrite enc_pair_nonempty, Cut_enc_pair.
  by rewrite !QueryUnescape_QueryEscape.
Qed.

Lemma parseQuery_empty fuel m err : parseQuery fuel m err "" = (m, err).
Proof. by destruct fuel. Qed.

(** [parseQuery] reads back the pairs of a query string, in order. *)
Lemma parseQuery_pairs ps : ∀ fuel m err,
  (length ps ≤ fuel)%nat →
  parseQuery fuel m err (join_amp (enc_pair <$> ps))
  = (fold_left add_value ps m, err).
Proof.
  induction ps as [|p ps IH]; intros fuel m err Hfuel.
  - apply parseQuery_empty.
  - destruct fuel as [|fuel]; [by inversion Hfuel|].
    apply le_S_n in Hfuel. cbn [fmap list_fmap join_amp fold_left].
    destruct ps as [|q ps].
    + cbn [fmap list_fmap amp_all str_concat].
      rewrite (parseQuery_step _ _ _ _ _ "" false).
      * apply parseQuery_empty.
      * rewrite app_nil_r. apply Cut_none. by apply enc_pair_no.
    + rewrite (parseQuery_step _ _ _ _ _ (join_amp (enc_pair <$> q :: ps)) true).
      * by apply IH.
      * cbn [fmap list_fmap amp_all str_concat join_amp].
        rewrite app_cons, app_nil_l. apply Cut_sep. by apply enc_pair_no.
Qed.

(** The loop of [Values.Encode] over pieces that are not empty: an
    ampersand goes before every piece but the first of the buffer. *)
Lemma encode_loop (pieces : list string) (buf : string) :
  Forall (λ p, str_is_empty p = false) pieces →
  fold_left (λ buf p, (if str_is_empty buf then buf else buf +:+ "&") +:+ p)
    pieces buf
  = if str_is_empty buf then join_amp pieces else buf +:+ amp_all pieces.
Proof.
  revert buf. induction pieces as [|p pieces IH]; intros buf Hne.
  - simpl. destruct buf; [done | by rewrite app_nil_r].
  - apply Forall_cons in Hne as [Hp Hne].
    cbn [fold_left]. rewrite IH by done.
    destruct buf as [|c buf].
    + rewrite app_nil_l. rewrite Hp. done.
    + cbn [str_is_empty]. rewrite !app_cons. cbn [str_is_empty].
      unfold amp_all. cbn [fmap list_fmap str_concat].
      rewrite <- !app_cons. by rewrite !app_assoc.
Qed.

(** The two nested loops of [Values.Encode] write the pairs of the keys,
    in the order of the keys. *)
Lemma encode_keys (v : Values) (keys : list string) (buf : string) :
  fold_left (encode_key v) keys buf
  = fold_left (λ buf p, (if str_is_empty buf then buf else buf +:+ "&") +:+ p)
      (enc_pair <$> pairs_of v keys) buf.
Proof.
  revert buf. induction keys as [|k keys IH]; intros buf; [done|].
  cbn [fold_left]. rewrite IH. unfold pairs_of. cbn [mbind list_bind].
  rewrite fmap_app, fold_left_app. f_equal.
  unfold encode_key. clear IH.
  generalize (default [] (v !! k)). intros vs. revert buf.
  induction vs as [|x vs IH]; intros buf; [done|].
  cbn [fold_left fmap list_fmap]. by rewrite IH.
Qed.

(** [Values.Encode] is the pairs of the parameter set, the keys in sorted
    order, joined by ampersands. *)
Lemma Values_Encode_sorted (v : Values) :
  ∃ keys : list string,
    Sorted String.le keys
    ∧ keys ≡ₚ (map_to_list v).*1
    ∧ Values_Encode v = join_amp (enc_pair <$> pairs_of v keys).
Proof.
  exists (merge_sort String.le (map_to_list v).*1).
  split_and!.
  - apply Sorted_merge_sort. apply _.
  - apply merge_sort_Permutation.
  - unfold Values_Encode.
    destruct (Nat.eqb_spec (size v) 0) as [Hsize|_].
    + apply map_size_empty_iff in Hsize as ->.
      by rewrite map_to_list_empty.
    + rewrite encode_keys, encode_loop; [done|].
      apply Forall_fmap, Forall_forall. intros p _. apply enc_pair_nonempty.
Qed.

(** Appending the values of one key. *)
Lemma add_values (k : string) (vs : list string) (m : Values) :
  fold_left add_value ((λ x, (k, x)) <$> vs) m
  = match vs with
    | [] => m
    | _ => <[k := default [] (m !! k) ++ vs]> m
    end.
Proof.
  revert m. induction vs as [|x vs IH]; intros m; [done|].
  cbn [fmap list_fmap fold_left]. rewrite IH.
  unfold add_value. simpl.
  destruct vs as [|y vs]; [done|].
  rewrite lookup_insert_eq, insert_insert_eq. simpl.
  by rewrite <- (assoc_L (++)).
Qed.

(** Reading back the pairs of distinct keys that the map does not hold
    yet: every key with values gets its values. *)
Lemma add_pairs (v : Values) (keys : list string) : ∀ m0 : Values,
  NoDup keys →
  (∀ k, k ∈ keys → m0 !! k = None) →
  ∀ k',
    fold_left add_value (pairs_of v keys) m0 !! k'
    = if decide (k' ∈ keys)
      then match default [] (v !! k') with [] => None | vs => Some vs end
      else m0 !! k'.
Proof.
  induction keys as [|k keys IH]; intros m0 Hnd Hfresh k'.
  - by destruct (decide (k' ∈ [])) as [H%elem_of_nil|].
  - apply NoDup_cons in Hnd as [Hk Hnd].
    unfold pairs_of. cbn [mbind list_bind]. rewrite fold_left_app.
    fold (pairs_of v keys). rewrite add_values.
    rewrite (Hfresh k) by apply list_elem_of_here. simpl.
    set (m1 := match default [] (v !! k) with
               | [] => m0
               | _ => <[k := default [] (v !! k)]> m0
               end).
    assert (∀ k'', k'' ≠ k → m1 !! k'' = m0 !! k'') as Hm1.
    { intros k'' Hne. unfold m1. destruct (default [] (v !! k)); [done|].
      by rewrite lookup_insert_ne. }
    rewrite IH; [|done|].
    + destruct (decide (k' ∈ keys)) as [Hin|Hnin].
      * rewrite decide_True by by apply list_elem_of_further. done.
      * destruct (decide (k' = k)) as [->|Hne].
        -- rewrite decide_True by apply list_elem_of_here.
           unfold m1. destruct (default [] (v !! k)) eqn:Hvs.
           ++ apply Hfresh, list_elem_of_here.
           ++ by rewrite lookup_insert_eq.
        -- rewrite decide_False by (intros [?|?]%elem_of_cons; done).
           by apply Hm1.
    + intros k'' Hin. rewrite Hm1 by (intros ->; done).
      by apply Hfresh, list_elem_of_further.
Qed.

Lemma join_amp_length (ps : list (string * string)) :
  (length ps ≤ String.length (join_amp (enc_pair <$> ps)))%nat.
Proof.
  destruct ps as [|p ps]; [done|].
  cbn [fmap list_fmap join_amp]. rewrite app_length.
  assert (1 ≤ String.length (enc_pair p))%nat.
  { pose proof (enc_pair_nonempty p). destruct (enc_pair p); [done | simpl; lia]. }
  assert (length ps ≤ String.length (amp_all (enc_pair <$> ps)))%nat.
  { unfold amp_all. induction ps as [|q ps IH]; [done|].
    cbn [fmap list_fmap str_concat]. rewrite !app_length. simpl. lia. }
  simpl. lia.
Qed.

(** Decoding the encoded parameters gives the parameters back, when no
    key has an empty list of values. *)
Theorem Values_roundtrip (v : Values) :
  (∀ k vs, v !! k = Some vs → vs ≠ []) →
  url_ParseQuery (Values_Encode v) = (v, None).
Proof.
  intros Hne.
  destruct (Values_Encode_sorted v) as (keys & _ & Hperm & ->).
  unfold url_ParseQuery. rewrite parseQuery_pairs.
  2: { pose proof (join_amp_length (pairs_of v keys)). lia. }
  f_equal. apply map_eq. intros k'.
  rewrite add_pairs.
  - destruct (decide (k' ∈ keys)) as [Hin|Hnin].
    + rewrite Hperm in Hin. apply list_elem_of_fmap in Hin as ([k vs] & -> & Hin).
      apply elem_of_map_to_list in Hin. simpl. rewrite Hin. simpl.
      specialize (Hne _ _ Hin). by destruct vs.
    + rewrite lookup_empty.
      destruct (v !! k') as [vs|] eqn:Hk; [|done].
      destruct Hnin. rewrite Hperm. apply list_elem_of_fmap.
      exists (k', vs). split; [done|]. by apply elem_of_map_to_list.
  - rewrite Hperm. apply NoDup_fst_map_to_list.
  - intros k _. apply lookup_empty.
Qed.

(** The query that [buildURL] sets is the encoding of the parameters. *)
Lemma resolveURL_RawQuery base path (params : Values) :
  RawQuery (resolveURL base path params) = Values_Encode params.
Proof.
  simpl. destruct (Nat.ltb_spec 0 (size params)) as [|Hsize]; [done|].
  unfold Values_Encode.
  destruct (Nat.eqb_spec (size params) 0); [done | lia].
Qed.

Lemma Values_Encode_nonempty (v : Values) :
  v ≠ ∅ → (∀ k vs, v !! k = Some vs → vs ≠ []) →
  str_is_empty (Values_Encode v) = false.
Proof.
  intros Hv Hne.
  destruct (Values_Encode_sorted v) as (keys & _ & Hperm & ->).
  apply map_choose in Hv as (k & vs & Hk).
  assert (k ∈ keys) as Hin.
  { rewrite Hperm. apply list_elem_of_fmap. exists (k, vs).
    split; [done|]. by apply elem_of_map_to_list. }
  assert (∃ p ps, pairs_of v keys = p :: ps) as (p & ps & ->).
  { destruct (pairs_of v keys) as [|p ps] eqn:Hps; [|eauto].
    exfalso. specialize (Hne _ _ Hk).
    assert ((k, default "" (head vs)) ∈ pairs_of v keys) as Hp.
    { unfold pairs_of. apply list_elem_of_bind. exists k. split; [|done].
      rewrite Hk. simpl. apply list_elem_of_fmap. exists (default "" (head vs)).
      split; [done|]. destruct vs; [done | apply list_elem_of_here]. }
    rewrite Hps in Hp. by apply elem_of_nil in Hp. }
  cbn [fmap list_fmap join_amp].
  pose proof (enc_pair_nonempty p). by destruct (enc_pair p).
Qed.

(** The query part of the target, for a parameter set without empty
    value lists: a question mark and the sorted, escaped pairs, which
    decode to the parameter set, when there are parameters; nothing when
    there are none and the base does not force a question mark. *)
Theorem buildURL_query (base : URL) (path : string) (params : Values) :
  (∀ k vs, params !! k = Some vs → vs ≠ []) →
  let resolved := resolveURL base path params in
  buildURL (Some base) path params
  = Ok (URL_String_head resolved +:+ URL_String_query resolved
        +:+ URL_String_fragment resolved)
  ∧ url_ParseQuery (RawQuery resolved) = (params, None)
  ∧ (∃ keys : list string,
       Sorted String.le keys ∧ keys ≡ₚ (map_to_list params).*1
       ∧ RawQuery resolved = join_amp (enc_pair <$> pairs_of params keys))
  ∧ (params ≠ ∅ → URL_String_query resolved = "?" +:+ RawQuery resolved)
  ∧ (params = ∅ → ForceQuery base = false → URL_String_query resolved = "").
Proof.
  intros Hne resolved. subst resolved.
  split_and!; [done| | | |].
  - rewrite resolveURL_RawQuery. by apply Values_roundtrip.
  - rewrite resolveURL_RawQuery. apply Values_Encode_sorted.
  - intros Hv. unfold URL_String_query. rewrite resolveURL_RawQuery.
    rewrite Values_Encode_nonempty by done. simpl. by rewrite orb_true_r.
  - intros -> Hforce. unfold URL_String_query.
    rewrite resolveURL_RawQuery. simpl. by rewrite Hforce.
Qed.

Lemma buildURL_query_witness :
  let base := mkURL "http" "" None "h" "/api" "" false false "" "" "" in
  buildURL (Some base) "/locations" ∅ = Ok "http://h/api/locations"
  ∧ buildURL (Some base) "/locations"
      (<["query" := ["berlin hbf"]]> (<["results" := ["5"]]> ∅))
    = Ok "http://h/api/locations?query=berlin+hbf&results=5".
Proof.
  intros base. split.
  - destruct (buildURL_query base "/locations" ∅) as (Hstr & _ & _ & _ & Hq).
    { intros k vs Hk. by rewrite lookup_empty in Hk. }
    rewrite Hstr, Hq by done. vm_compute. reflexivity.
  - set (params := <["query" := ["berlin hbf"]]> (<["results" := ["5"]]> ∅) : Values).
    destruct (buildURL_query base "/locations" params) as (Hstr & _ & _ & Hq & _).
    { intros k vs Hk ->. revert Hk. unfold params.
      destruct (decide (k = "query")) as [->|]; [by rewrite lookup_insert_eq|].
      rewrite lookup_insert_ne by done.
      destruct (decide (k = "results")) as [->|]; [by rewrite lookup_insert_eq|].
      rewrite lookup_insert_ne by done. by rewrite lookup_empty. }
    rewrite Hstr, Hq.
    + vm_compute. reflexivity.
    + intros Hempty. apply (f_equal (lookup "query")) in Hempty.
      unfold params in Hempty. by rewrite lookup_insert_eq, lookup_empty in Hempty.
Defined.

(** The target of [TestClientGetBuildsURL]. *)
Example TestClientGetBuildsURL :
  ∃ c : Client,
    NewClient (mkConfig "http://127.0.0.1:8080/api" 0 "") = Ok c
    ∧ Client_URL c "/locations"
        (<["query" := ["berlin"]]> (<["results" := ["5"]]> ∅))
      = Ok "http://127.0.0.1:8080/api/locations?query=berlin&results=5".
Proof.
  exists (mkClient
            (Some (mkURL "http" "" None "127.0.0.1:8080" "/api" "" false false
                     "" "" ""))
            (mk_http_Client (10 * time_Second)) "").
  split; vm_compute; reflexivity.
Qed.

(** C3. A base with a bare question mark at its end parses with
    [ForceQuery] set; [buildURL] clears [RawQuery] for an empty parameter
    set and leaves [ForceQuery] as it is, so the target ends in a question
    mark. *)
Theorem buildURL_keeps_forced_question_mark :
  ∃ c : Client,
    NewClient (mkConfig "https://v6.db.transport.rest/api?" 0 "") = Ok c
    ∧ Client_URL c "/locations" ∅
      = Ok "https://v6.db.transport.rest/api/locations?".
Proof.
  exists (mkClient
            (Some (mkURL "https" "" None "v6.db.transport.rest" "/api" "" false
                     true "" "" ""))
            (mk_http_Client (10 * time_Second)) "").
  split; vm_compute; reflexivity.
Qed.
